(** * c-circus: the circular buffer of [circularbuffer.c]

    A shallow embedding of the byte ring buffer used by the UART driver,
    and the properties of its operations.

    Integers are modelled as [Z] with the C conversions written out
    ([u16], [u32]); the target is a 32-bit ARM Cortex-M, so [int] and
    [unsigned long] are 32 bits wide and every [uint16_t] operand is
    promoted to [int] before arithmetic.  The backing store is a region of
    bytes ([list byte]) reached through a pointer that may be [NULL]
    ([option]).  Every operation runs in the [result] monad, which records
    a failed [assert], an access outside a region (undefined behaviour in
    C) and a loop that has used up its fuel. *)

From Stdlib Require Import ZArith Lia Bool.
From Stdlib Require Import Init.Byte Strings.Byte.
From stdpp Require Import base list.

Local Open Scope Z_scope.

(** ** Outcomes of a C call *)

Inductive result (A : Type) : Type :=
| Ok (a : A)
| AssertFailed
| Undefined
| OutOfFuel.

Arguments Ok {A} a.
Arguments AssertFailed {A}.
Arguments Undefined {A}.
Arguments OutOfFuel {A}.

Definition bind {A B : Type} (r : result A) (k : A -> result B) : result B :=
  match r with
  | Ok a => k a
  | AssertFailed => AssertFailed
  | Undefined => Undefined
  | OutOfFuel => OutOfFuel
  end.

Notation "'let*' x := e 'in' k" := (bind e (fun x => k))
  (at level 10, x pattern, e at level 200, k at level 200, only parsing).

(** ** Integer conversions *)

Definition u16 (x : Z) : Z := x mod 2 ^ 16.
Definition u32 (x : Z) : Z := x mod 2 ^ 32.

(** [0x0001UL << n]: undefined once the shift reaches the width of
    [unsigned long]. *)
Definition shl_ul (x n : Z) : result Z :=
  if (0 <=? n) && (n <? 32) then Ok (u32 (Z.shiftl x n)) else Undefined.

(** ** The data model of [circularbuffer.h] *)

Record CircularBufferObject_t : Type := {
  back : Z;
  front : Z;
  faultFlag : Z;
  lengthMask : Z;
  length : Z;
  memory : option (list byte)
}.

Module Pointers.
Record CircularBufferPointers_t : Type := { back : Z; front : Z }.
End Pointers.

Definition set_back (v : Z) (b : CircularBufferObject_t) : CircularBufferObject_t :=
  {| back := v; front := front b; faultFlag := faultFlag b;
     lengthMask := lengthMask b; length := length b; memory := memory b |}.

Definition set_front (v : Z) (b : CircularBufferObject_t) : CircularBufferObject_t :=
  {| back := back b; front := v; faultFlag := faultFlag b;
     lengthMask := lengthMask b; length := length b; memory := memory b |}.

Definition set_faultFlag (v : Z) (b : CircularBufferObject_t) : CircularBufferObject_t :=
  {| back := back b; front := front b; faultFlag := v;
     lengthMask := lengthMask b; length := length b; memory := memory b |}.

Definition set_memory (m : list byte) (b : CircularBufferObject_t) : CircularBufferObject_t :=
  {| back := back b; front := front b; faultFlag := faultFlag b;
     lengthMask := lengthMask b; length := length b; memory := Some m |}.

Definition is_set (p : option (list byte)) : bool :=
  match p with Some _ => true | None => false end.

(** The 32-bit word at the start of the object: [back] in the low half,
    [front] in the high half (little-endian layout of the two leading
    [uint16_t] fields). *)
Definition first_word (b : CircularBufferObject_t) : Z :=
  Z.lor (back b) (Z.shiftl (front b) 16).

Definition pointers_of_word (w : Z) : Pointers.CircularBufferPointers_t :=
  {| Pointers.back := Z.land w 0xFFFF; Pointers.front := Z.shiftr w 16 |}.

(** ** Accesses to a byte region *)

(** [p[i]] as an rvalue. *)
Definition load (p : option (list byte)) (i : Z) : result byte :=
  match p with
  | None => Undefined
  | Some m => match m !! Z.to_nat i with
              | Some x => Ok x
              | None => Undefined
              end
  end.

(** [p[i] = x]. *)
Definition store (p : option (list byte)) (i : Z) (x : byte) : result (list byte) :=
  match p with
  | None => Undefined
  | Some m => if decide (Z.to_nat i < Datatypes.length m)%nat
              then Ok (<[Z.to_nat i := x]> m)
              else Undefined
  end.

(** [memcpy(&dst[doff], &src[soff], n)], byte after byte; the two regions
    are distinct objects. *)
Fixpoint memcpy_bytes (n : nat) (dst : list byte) (doff : nat)
         (src : list byte) (soff : nat) : result (list byte) :=
  match n with
  | O => Ok dst
  | S n' =>
      match src !! soff with
      | None => Undefined
      | Some x =>
          if decide (doff < Datatypes.length dst)%nat
          then memcpy_bytes n' (<[doff := x]> dst) (S doff) src (S soff)
          else Undefined
      end
  end.

Definition memcpy (dst : option (list byte)) (doff : Z)
           (src : option (list byte)) (soff : Z) (n : Z) : result (list byte) :=
  match dst, src with
  | Some d, Some s => memcpy_bytes (Z.to_nat n) d (Z.to_nat doff) s (Z.to_nat soff)
  | _, _ => Undefined
  end.

#[global] Arguments load : simpl never.
#[global] Arguments store : simpl never.
#[global] Arguments memcpy : simpl never.

(** ** The operations of [circularbuffer.c] *)

Section Build.

(** Whether the translation unit is compiled with [NDEBUG], which turns
    every [assert] into nothing. *)
Variable NDEBUG : bool.

Definition assert (c : bool) : result unit :=
  if NDEBUG then Ok tt else if c then Ok tt else AssertFailed.

(** The object pointer itself is always valid here, so
    [assert(bufferObject)] holds and only the bound on the exponent is
    left. *)
Definition CircularBuffer_init (bufferMemory : option (list byte)) (length_2N : Z)
  : result CircularBufferObject_t :=
  let* _ := assert true in
  let* _ := assert (length_2N <=? 16) in
  let* sh := shl_ul 0x0001 length_2N in
  let lengthMask := u16 (u32 (sh - 1)) in
  Ok {| memory := bufferMemory;
        lengthMask := lengthMask;
        length := if length_2N =? 0 then 0 else u32 (lengthMask + 1);
        faultFlag := 0;
        front := 0;
        back := 0 |}.

Definition CircularBuffer_getUnreadSize (bufferObject : CircularBufferObject_t)
  : result Z :=
  let* _ := assert (is_set (memory bufferObject)) in
  let cachedPointers := pointers_of_word (first_word bufferObject) in
  Ok (u16 (Z.land (Pointers.back cachedPointers - Pointers.front cachedPointers)
                  (lengthMask bufferObject))).

Definition CircularBuffer_checkAndClearFault
           (bufferObject : CircularBufferObject_t) (clearBuffer : bool)
  : result (bool * CircularBufferObject_t) :=
  let* _ := assert (is_set (memory bufferObject)) in
  let bufferObject :=
    if clearBuffer then set_front (back bufferObject) bufferObject
    else bufferObject in
  if negb (faultFlag bufferObject =? 0)
  then Ok (true, set_faultFlag 0 bufferObject)
  else Ok (false, bufferObject).

Definition CircularBuffer_pushBackByte
           (bufferObject : CircularBufferObject_t) (data : byte)
  : result (bool * CircularBufferObject_t) :=
  let* _ := assert (is_set (memory bufferObject)) in
  let* unread := CircularBuffer_getUnreadSize bufferObject in
  if unread <? lengthMask bufferObject then
    let* m := store (memory bufferObject) (back bufferObject) data in
    let bufferObject := set_memory m bufferObject in
    let bufferObject :=
      set_back (u16 (Z.land (back bufferObject + 1) (lengthMask bufferObject)))
               bufferObject in
    Ok (true, bufferObject)
  else
    Ok (false, set_faultFlag 1 bufferObject).

(** [data] is the byte the caller's pointer designates; its value after
    the call is returned next to the buffer. *)
Definition CircularBuffer_popFrontByte
           (bufferObject : CircularBufferObject_t) (data : byte)
  : result (bool * CircularBufferObject_t * byte) :=
  let* _ := assert (is_set (memory bufferObject)) in
  if negb (back bufferObject =? front bufferObject) then
    let* x := load (memory bufferObject) (front bufferObject) in
    let bufferObject :=
      set_front (u16 (Z.land (front bufferObject + 1) (lengthMask bufferObject)))
                bufferObject in
    Ok (true, bufferObject, x)
  else
    Ok (false, bufferObject, data).

(** The [while (lenTotal > 0)] loop of [CircularBuffer_pushBack]; [off]
    is how far the [data] pointer has been moved. *)
Fixpoint pushBack_loop (fuel : nat) (bufferObject : CircularBufferObject_t)
         (data : list byte) (off : Z) (lenTotal : Z)
  : result CircularBufferObject_t :=
  if 0 <? lenTotal then
    match fuel with
    | O => OutOfFuel
    | S fuel' =>
        let partialLen := lenTotal in
        let partialLen :=
          if u32 (length bufferObject - back bufferObject) <? partialLen
          then u16 (u32 (length bufferObject - back bufferObject))
          else partialLen in
        let* m := memcpy (memory bufferObject) (back bufferObject)
                       (Some data) off partialLen in
        let bufferObject := set_memory m bufferObject in
        let bufferObject :=
          set_back (u16 (Z.land (back bufferObject + partialLen)
                                (lengthMask bufferObject)))
                   bufferObject in
        pushBack_loop fuel' bufferObject data (off + partialLen)
                      (u16 (lenTotal - partialLen))
    end
  else Ok bufferObject.

Definition CircularBuffer_pushBack (fuel : nat)
           (bufferObject : CircularBufferObject_t) (data : list byte) (maxlen : Z)
  : result (Z * CircularBufferObject_t) :=
  let* _ := assert (is_set (memory bufferObject)) in
  let* unread := CircularBuffer_getUnreadSize bufferObject in
  let lenTotal := u16 (lengthMask bufferObject - unread) in
  let lenTotal := if maxlen <? lenTotal then maxlen else lenTotal in
  let actualLen := lenTotal in
  let* bufferObject := pushBack_loop fuel bufferObject data 0 lenTotal in
  Ok (actualLen, bufferObject).

(** The loop of [CircularBuffer_popFront]; [data] is the caller's output
    region and [off] how far the pointer into it has been moved. *)
Fixpoint popFront_loop (fuel : nat) (bufferObject : CircularBufferObject_t)
         (data : list byte) (off : Z) (lenTotal : Z)
  : result (CircularBufferObject_t * list byte) :=
  if 0 <? lenTotal then
    match fuel with
    | O => OutOfFuel
    | S fuel' =>
        let partialLen := lenTotal in
        let partialLen :=
          if u32 (length bufferObject - front bufferObject) <? partialLen
          then u16 (u32 (length bufferObject - front bufferObject))
          else partialLen in
        let* data := memcpy (Some data) off
                          (memory bufferObject) (front bufferObject) partialLen in
        let bufferObject :=
          set_front (u16 (Z.land (front bufferObject + partialLen)
                                 (lengthMask bufferObject)))
                    bufferObject in
        popFront_loop fuel' bufferObject data (off + partialLen)
                      (u16 (lenTotal - partialLen))
    end
  else Ok (bufferObject, data).

Definition CircularBuffer_popFront (fuel : nat)
           (bufferObject : CircularBufferObject_t) (data : list byte) (maxlen : Z)
  : result (Z * CircularBufferObject_t * list byte) :=
  let* _ := assert (is_set (memory bufferObject)) in
  let* lenTotal := CircularBuffer_getUnreadSize bufferObject in
  let lenTotal := if maxlen <? lenTotal then maxlen else lenTotal in
  let actualLen := lenTotal in
  let* (bufferObject, data) := popFront_loop fuel bufferObject data 0 lenTotal in
  Ok (actualLen, bufferObject, data).

#[global] Arguments CircularBuffer_getUnreadSize : simpl never.
#[global] Arguments CircularBuffer_checkAndClearFault : simpl never.
#[global] Arguments CircularBuffer_pushBackByte : simpl never.
#[global] Arguments CircularBuffer_popFrontByte : simpl never.
#[global] Arguments CircularBuffer_pushBack : simpl never.
#[global] Arguments CircularBuffer_popFront : simpl never.

(** ** Sequences of calls *)

(** Single pushes of [n] bytes of [data] from index [off] on, stopping at
    the first one that is refused. *)
Fixpoint push_each (n : nat) (bufferObject : CircularBufferObject_t)
         (data : list byte) (off : nat) : result (bool * CircularBufferObject_t) :=
  match n with
  | O => Ok (true, bufferObject)
  | S n' =>
      let* x := load (Some data) (Z.of_nat off) in
      let* (ok, bufferObject) := CircularBuffer_pushBackByte bufferObject x in
      if ok then push_each n' bufferObject data (S off)
      else Ok (false, bufferObject)
  end.

(** Single pops of [n] bytes into [data] from index [off] on, stopping
    at the first one that finds the buffer empty. *)
Fixpoint pop_each (n : nat) (bufferObject : CircularBufferObject_t)
         (data : list byte) (off : nat)
  : result (bool * CircularBufferObject_t * list byte) :=
  match n with
  | O => Ok (true, bufferObject, data)
  | S n' =>
      let* cell := load (Some data) (Z.of_nat off) in
      let* (ok, bufferObject, cell) := CircularBuffer_popFrontByte bufferObject cell in
      if ok then
        let* data := store (Some data) (Z.of_nat off) cell in
        pop_each n' bufferObject data (S off)
      else Ok (false, bufferObject, data)
  end.

(** A producer or consumer call of the single-element interface. *)
Inductive single_call : Type :=
| Push (data : byte)
| Pop.

(** Runs the calls in order and counts the pushes and the pops that
    returned [true]. *)
Fixpoint run_singles (bufferObject : CircularBufferObject_t)
         (calls : list single_call) (pushes pops : Z)
  : result (CircularBufferObject_t * Z * Z) :=
  match calls with
  | [] => Ok (bufferObject, pushes, pops)
  | Push data :: calls =>
      let* (ok, bufferObject) := CircularBuffer_pushBackByte bufferObject data in
      run_singles bufferObject calls (if ok then pushes + 1 else pushes) pops
  | Pop :: calls =>
      let* (ok, bufferObject, _) := CircularBuffer_popFrontByte bufferObject x00 in
      run_singles bufferObject calls pushes (if ok then pops + 1 else pops)
  end.

(** Any call of the interface after [CircularBuffer_init]. *)
Inductive call : Type :=
| GetUnreadSize
| CheckAndClearFault (clearBuffer : bool)
| PushBackByte (data : byte)
| PopFrontByte (data : byte)
| PushBack (data : list byte) (maxlen : Z)
| PopFront (data : list byte) (maxlen : Z).

Inductive retval : Type :=
| RBool (r : bool)
| RCount (n : Z).

Definition exec (fuel : nat) (bufferObject : CircularBufferObject_t) (c : call)
  : result (retval * CircularBufferObject_t) :=
  match c with
  | GetUnreadSize =>
      let* n := CircularBuffer_getUnreadSize bufferObject in
      Ok (RCount n, bufferObject)
  | CheckAndClearFault clearBuffer =>
      let* (r, bufferObject) :=
        CircularBuffer_checkAndClearFault bufferObject clearBuffer in
      Ok (RBool r, bufferObject)
  | PushBackByte data =>
      let* (r, bufferObject) := CircularBuffer_pushBackByte bufferObject data in
      Ok (RBool r, bufferObject)
  | PopFrontByte data =>
      let* (r, bufferObject, _) := CircularBuffer_popFrontByte bufferObject data in
      Ok (RBool r, bufferObject)
  | PushBack data maxlen =>
      let* (n, bufferObject) := CircularBuffer_pushBack fuel bufferObject data maxlen in
      Ok (RCount n, bufferObject)
  | PopFront data maxlen =>
      let* (n, bufferObject, _) := CircularBuffer_popFront fuel bufferObject data maxlen in
      Ok (RCount n, bufferObject)
  end.

(** The caller's side of the contract of the bulk calls: [maxlen] is a
    [uint16_t] and the region behind [data] has that many bytes. *)
Definition valid_call (c : call) : Prop :=
  match c with
  | PushBack data maxlen | PopFront data maxlen =>
      0 <= maxlen < 2 ^ 16 /\ maxlen <= Z.of_nat (Datatypes.length data)
  | _ => True
  end.

(** ** Vocabulary of the properties *)

(** What [CircularBuffer_init] establishes for exponent [N] and a store
    of at least [2 ^ N] bytes, and every operation keeps. *)
Record wf (N : Z) (b : CircularBufferObject_t) : Prop := {
  wf_exp : 0 <= N <= 16;
  wf_mask : lengthMask b = 2 ^ N - 1;
  wf_length : length b = if N =? 0 then 0 else 2 ^ N;
  wf_back : 0 <= back b <= lengthMask b;
  wf_front : 0 <= front b <= lengthMask b;
  wf_fault : faultFlag b = 0 \/ faultFlag b = 1;
  wf_memory : exists m, memory b = Some m /\
                        length b <= Z.of_nat (Datatypes.length m)
}.

(** The states on which the assertion [bufferObject->memory] at the head
    of every operation lets the call through. *)
Definition accepted (b : CircularBufferObject_t) : Prop :=
  NDEBUG = true \/ memory b <> None.

(** Number of unread bytes, as the data model defines it. *)
Definition occupancy (b : CircularBufferObject_t) : Z :=
  (back b - front b) mod (lengthMask b + 1).

(** The object [CircularBuffer_init] leaves behind. *)
Definition fresh (N : Z) (bufferMemory : option (list byte)) : CircularBufferObject_t :=
  {| back := 0; front := 0; faultFlag := 0;
     lengthMask := 2 ^ N - 1;
     length := if N =? 0 then 0 else 2 ^ N;
     memory := bufferMemory |}.

(** Index of the [i]-th unread byte. *)
Definition slot (b : CircularBufferObject_t) (i : nat) : nat :=
  Z.to_nat ((front b + Z.of_nat i) mod (lengthMask b + 1)).

(** The unread bytes, oldest first. *)
Definition contents (b : CircularBufferObject_t) : list byte :=
  match memory b with
  | None => []
  | Some m =>
      (fun i : nat => default x00 (m !! slot b i))
        <$> seq 0 (Z.to_nat (occupancy b))
  end.

(** The buffer after an accepted push of [x]. *)
Definition pushed (b : CircularBufferObject_t) (m : list byte) (x : byte)
  : CircularBufferObject_t :=
  set_back ((back b + 1) mod (lengthMask b + 1))
           (set_memory (<[Z.to_nat (back b) := x]> m) b).

(** The buffer after a successful pop. *)
Definition popped (b : CircularBufferObject_t) : CircularBufferObject_t :=
  set_front ((front b + 1) mod (lengthMask b + 1)) b.

(** The state of a buffer set up with a null store and exponent 0, with
    the fault flag left free. *)
Definition unconfigured (b : CircularBufferObject_t) : Prop :=
  back b = 0 /\ front b = 0 /\ lengthMask b = 0 /\ length b = 0 /\
  memory b = None.

(** ** Sample buffers *)

(** Capacity 4, two unread bytes lying across the physical end of the
    store (indices 3 and 0). *)
Definition wrapped : CircularBufferObject_t :=
  {| back := 1; front := 3; faultFlag := 0; lengthMask := 3; length := 4;
     memory := Some [x0b; x0c; x0d; x0a] |}.

(** Capacity 4 with all three usable slots taken. *)
Definition full : CircularBufferObject_t :=
  {| back := 2; front := 3; faultFlag := 0; lengthMask := 3; length := 4;
     memory := Some [x0b; x0c; x0d; x0a] |}.

(** Capacity 4, empty, with a fault pending. *)
Definition faulted : CircularBufferObject_t :=
  {| back := 2; front := 2; faultFlag := 1; lengthMask := 3; length := 4;
     memory := Some [x0b; x0c; x0d; x0a] |}.

(** ** The scenario of the design notes: exponent 3, capacity 8 *)

Definition store8 : list byte := repeat x00 8.

Definition bytes_1_7 : list byte := [x01; x02; x03; x04; x05; x06; x07].

(** Push 1..7 one at a time, push 8 (refused), pop three bytes, bulk
    push [8; 9; 10], then drain with a bulk pop; the unread count is
    sampled after each stage. *)
Definition scenario
  : result (list Z * list bool * Z * list (list byte)) :=
  let* b := CircularBuffer_init (Some store8) 3 in
  let* (ok7, b) := push_each 7 b bytes_1_7 0 in
  let* u7 := CircularBuffer_getUnreadSize b in
  let* (ok8, b) := CircularBuffer_pushBackByte b x08 in
  let* (ok3, b, out3) := pop_each 3 b [x00; x00; x00] 0 in
  let* u4 := CircularBuffer_getUnreadSize b in
  let* (n, b) := CircularBuffer_pushBack 2 b [x08; x09; x0a] 3 in
  let* u7' := CircularBuffer_getUnreadSize b in
  let* (k, b, out) := CircularBuffer_popFront 2 b (repeat x00 9) 9 in
  Ok ([u7; u4; u7'; n; k], [ok7; ok8; ok3], faultFlag b, [out3; out]).

(** Four bulk pushes of three bytes, each drained by a bulk pop, through
    a store of four bytes: twelve bytes in all, three times around. *)
Fixpoint laps (n : nat) (bufferObject : CircularBufferObject_t)
         (chunks : list (list byte))
  : result (list (Z * Z * list byte) * CircularBufferObject_t) :=
  match n, chunks with
  | S n', chunk :: chunks =>
      let* (pushedLen, bufferObject) :=
        CircularBuffer_pushBack 2 bufferObject chunk 3 in
      let* (poppedLen, bufferObject, out) :=
        CircularBuffer_popFront 2 bufferObject [x00; x00; x00] 3 in
      let* (rest, bufferObject) := laps n' bufferObject chunks in
      Ok ((pushedLen, poppedLen, out) :: rest, bufferObject)
  | _, _ => Ok ([], bufferObject)
  end.

(** ** Calls with everything they hand back *)

(** What the caller sees of a call: the returned value and, for the pops,
    the bytes behind the destination pointer afterwards. *)
Inductive output : Type :=
| OBool (r : bool)
| OCount (n : Z)
| OByte (r : bool) (data : byte)
| OBytes (n : Z) (data : list byte).

Definition observe (fuel : nat) (bufferObject : CircularBufferObject_t) (c : call)
  : result (output * CircularBufferObject_t) :=
  match c with
  | GetUnreadSize =>
      let* n := CircularBuffer_getUnreadSize bufferObject in
      Ok (OCount n, bufferObject)
  | CheckAndClearFault clearBuffer =>
      let* (r, bufferObject) :=
        CircularBuffer_checkAndClearFault bufferObject clearBuffer in
      Ok (OBool r, bufferObject)
  | PushBackByte data =>
      let* (r, bufferObject) := CircularBuffer_pushBackByte bufferObject data in
      Ok (OBool r, bufferObject)
  | PopFrontByte data =>
      let* (r, bufferObject, data) := CircularBuffer_popFrontByte bufferObject data in
      Ok (OByte r data, bufferObject)
  | PushBack data maxlen =>
      let* (n, bufferObject) := CircularBuffer_pushBack fuel bufferObject data maxlen in
      Ok (OCount n, bufferObject)
  | PopFront data maxlen =>
      let* (n, bufferObject, data) :=
        CircularBuffer_popFront fuel bufferObject data maxlen in
      Ok (OBytes n data, bufferObject)
  end.

Fixpoint observe_all (fuel : nat) (bufferObject : CircularBufferObject_t)
         (calls : list call) : result (list output * CircularBufferObject_t) :=
  match calls with
  | [] => Ok ([], bufferObject)
  | c :: calls =>
      let* (o, bufferObject) := observe fuel bufferObject c in
      let* (os, bufferObject) := observe_all fuel bufferObject calls in
      Ok (o :: os, bufferObject)
  end.

(** ** A bounded queue with a fault latch *)

(** The reference the buffer is compared with: the unread bytes, oldest
    first, and whether a push has been refused since the last check. *)
Record queue : Type := { unread : list byte; fault : bool }.

Definition queue_step (room : Z) (q : queue) (c : call) : output * queue :=
  let len := Z.of_nat (Datatypes.length (unread q)) in
  match c with
  | GetUnreadSize => (OCount len, q)
  | CheckAndClearFault clearBuffer =>
      (OBool (fault q),
       {| unread := if clearBuffer then [] else unread q; fault := false |})
  | PushBackByte data =>
      if len <? room
      then (OBool true, {| unread := unread q ++ [data]; fault := fault q |})
      else (OBool false, {| unread := unread q; fault := true |})
  | PopFrontByte data =>
      match unread q with
      | [] => (OByte false data, q)
      | x :: rest => (OByte true x, {| unread := rest; fault := fault q |})
      end
  | PushBack data maxlen =>
      let n := Z.min maxlen (room - len) in
      (OCount n,
       {| unread := unread q ++ take (Z.to_nat n) data; fault := fault q |})
  | PopFront data maxlen =>
      let n := Z.min maxlen len in
      (OBytes n (take (Z.to_nat n) (unread q) ++ drop (Z.to_nat n) data),
       {| unread := drop (Z.to_nat n) (unread q); fault := fault q |})
  end.

Fixpoint queue_run (room : Z) (q : queue) (calls : list call)
  : list output * queue :=
  match calls with
  | [] => ([], q)
  | c :: calls =>
      let (o, q) := queue_step room q c in
      let (os, q) := queue_run room q calls in
      (o :: os, q)
  end.

(** The queue a buffer stands for. *)
Definition queue_of (b : CircularBufferObject_t) : queue :=
  {| unread := contents b; fault := negb (faultFlag b =? 0) |}.

(** Number of bytes behind the store pointer. *)
Definition store_len (b : CircularBufferObject_t) : nat :=
  match memory b with
  | Some m => Datatypes.length m
  | None => O
  end.

(** Calls of the producer and calls of the consumer. *)
Definition producer_call (c : call) : bool :=
  match c with
  | PushBackByte _ | PushBack _ _ => true
  | _ => false
  end.

Definition consumer_call (c : call) : bool :=
  match c with
  | PopFrontByte _ | PopFront _ _ | CheckAndClearFault _ => true
  | _ => false
  end.

(** ** The UART driver of [circularuart.c] *)

(** The driver talks to the USART, GPIO, RCC and NVIC through the vendor's
    peripheral library.  Calls that command a peripheral are recorded, in
    order, with the arguments the driver chooses; what the driver reads
    back from the hardware (the TC flag, the pending interrupts, the data
    register) is an input of the function that reads it.  The functions
    are run one after the other: the handler is a call like the others
    and does not cut into a call that is under way. *)

Inductive FunctionalState : Type := ENABLE | DISABLE.

Inductive USART_IT : Type := USART_IT_TXE | USART_IT_RXNE.

Inductive USART_Parity : Type :=
| USART_Parity_No
| USART_Parity_Odd
| USART_Parity_Even.

Inductive RCC_APB2Periph : Type :=
| RCC_APB2Periph_GPIOA
| RCC_APB2Periph_AFIO
| RCC_APB2Periph_USART1.

Inductive GPIO_Pin : Type := GPIO_Pin_9 | GPIO_Pin_10.

Inductive GPIOMode : Type := GPIO_Mode_IN_FLOATING | GPIO_Mode_AF_PP.

Inductive GPIOSpeed : Type := GPIO_Speed_50MHz.

(** [GPIO_Init] carries the speed only where the driver has set the field;
    [USART_Init] carries the two fields that vary (the others are always 8
    data bits, 1 stop bit, no flow control, Tx and Rx). *)
Inductive peripheral_call : Type :=
| RCC_APB2PeriphClockCmd (periph : list RCC_APB2Periph) (NewState : FunctionalState)
| GPIO_Init (pin : GPIO_Pin) (mode : GPIOMode) (speed : option GPIOSpeed)
| NVIC_Init (PreemptionPriority SubPriority : Z) (Cmd : FunctionalState)
| USART_Init (BaudRate : Z) (Parity : USART_Parity)
| USART_ITConfig (it : USART_IT) (NewState : FunctionalState)
| USART_Cmd (NewState : FunctionalState)
| USART_ClearFlag_RXNE
| USART_SendData (Data : byte).

Definition IRQPRIORITY_USART1 : Z := 0.

(** The two static buffer objects and the peripheral calls made so far,
    oldest first. *)
Record CircularUART_t : Type := {
  rxBufferObject : CircularBufferObject_t;
  txBufferObject : CircularBufferObject_t;
  peripheral : list peripheral_call
}.

Definition set_rxBufferObject (b : CircularBufferObject_t) (s : CircularUART_t)
  : CircularUART_t :=
  {| rxBufferObject := b; txBufferObject := txBufferObject s;
     peripheral := peripheral s |}.

Definition set_txBufferObject (b : CircularBufferObject_t) (s : CircularUART_t)
  : CircularUART_t :=
  {| rxBufferObject := rxBufferObject s; txBufferObject := b;
     peripheral := peripheral s |}.

Definition command (c : peripheral_call) (s : CircularUART_t) : CircularUART_t :=
  {| rxBufferObject := rxBufferObject s; txBufferObject := txBufferObject s;
     peripheral := peripheral s ++ [c] |}.

(** Conversion of the [uint16_t] read from the data register to the
    [uint8_t] parameter of [CircularBuffer_pushBackByte]. *)
Definition uint8 (x : Z) : byte :=
  match Byte.of_N (Z.to_N (x mod 2 ^ 8)) with
  | Some b => b
  | None => x00
  end.

Definition CircularUART_Init (s : CircularUART_t) (baud parity : Z)
  : result CircularUART_t :=
  let* rx := CircularBuffer_init None 0 in
  let s := set_rxBufferObject rx s in
  let* tx := CircularBuffer_init None 0 in
  let s := set_txBufferObject tx s in
  let s := command (RCC_APB2PeriphClockCmd
                      [RCC_APB2Periph_GPIOA; RCC_APB2Periph_AFIO] ENABLE) s in
  let s := command (RCC_APB2PeriphClockCmd [RCC_APB2Periph_USART1] ENABLE) s in
  let s := command (GPIO_Init GPIO_Pin_10 GPIO_Mode_IN_FLOATING None) s in
  let s := command (GPIO_Init GPIO_Pin_9 GPIO_Mode_AF_PP (Some GPIO_Speed_50MHz)) s in
  let s := command (NVIC_Init IRQPRIORITY_USART1 0 ENABLE) s in
  let s := command (USART_Init baud
                      (if parity =? 0 then USART_Parity_No
                       else if parity =? 1 then USART_Parity_Odd
                       else USART_Parity_Even)) s in
  let s := command (USART_ITConfig USART_IT_TXE DISABLE) s in
  let s := command (USART_ITConfig USART_IT_RXNE DISABLE) s in
  let s := command (USART_Cmd ENABLE) s in
  Ok s.



Definition CircularUART_ClearTx (s : CircularUART_t) : result CircularUART_t :=
  let s := command (USART_ITConfig USART_IT_TXE DISABLE) s in
  let* (_, tx) := CircularBuffer_checkAndClearFault (txBufferObject s) true in
  Ok (set_txBufferObject tx s).

Definition CircularUART_ClearRx (s : CircularUART_t) : result CircularUART_t :=
  let* (_, rx) := CircularBuffer_checkAndClearFault (rxBufferObject s) true in
  Ok (set_rxBufferObject rx s).

(** [TC] is what [USART_GetFlagStatus(USART1, USART_FLAG_TC)] returns. *)
Definition CircularUART_Send (fuel : nat) (s : CircularUART_t)
           (data : list byte) (maxlen : Z) (TC : bool)
  : result (Z * CircularUART_t) :=
  let* (result, tx) := CircularBuffer_pushBack fuel (txBufferObject s) data maxlen in
  let s := set_txBufferObject tx s in
  let s := if TC then command (USART_ITConfig USART_IT_TXE ENABLE) s else s in
  Ok (result, s).

Definition CircularUART_Receive (fuel : nat) (s : CircularUART_t)
           (data : list byte) (maxlen : Z)
  : result (Z * CircularUART_t * list byte) :=
  let* (n, rx, data) := CircularBuffer_popFront fuel (rxBufferObject s) data maxlen in
  Ok (n, set_rxBufferObject rx s, data).

Definition CircularUART_GetUnsentCount (s : CircularUART_t) : result Z :=
  CircularBuffer_getUnreadSize (txBufferObject s).

Definition CircularUART_GetUnreadCount (s : CircularUART_t) : result Z :=
  CircularBuffer_getUnreadSize (rxBufferObject s).

(** What one run of the interrupt handler reads from the hardware: the
    two [USART_GetITStatus] results, the data register, and the value
    the uninitialised local [data] happens to hold. *)
Record USART1_inputs : Type := {
  IT_TXE : bool;
  IT_RXNE : bool;
  DR : Z;
  local_data : byte
}.

Definition USART1_IRQHandler (s : CircularUART_t) (hw : USART1_inputs)
  : result CircularUART_t :=
  let* s :=
    if IT_TXE hw then
      let* (ok, tx, data) :=
        CircularBuffer_popFrontByte (txBufferObject s) (local_data hw) in
      let s := set_txBufferObject tx s in
      if ok then Ok (command (USART_SendData data) s)
      else Ok (command (USART_ITConfig USART_IT_TXE DISABLE) s)
    else Ok s in
  if IT_RXNE hw then
    let* (_, rx) :=
      CircularBuffer_pushBackByte (rxBufferObject s) (uint8 (DR hw)) in
    Ok (set_rxBufferObject rx s)
  else Ok s.

(** The handler run once per element of [hws]. *)
Fixpoint interrupts (s : CircularUART_t) (hws : list USART1_inputs)
  : result CircularUART_t :=
  match hws with
  | [] => Ok s
  | hw :: hws =>
      let* s := USART1_IRQHandler s hw in
      interrupts s hws
  end.

(** An interrupt with only TXE pending, and one with only RXNE pending. *)
Definition txe_only (hw : USART1_inputs) : Prop :=
  IT_TXE hw = true /\ IT_RXNE hw = false.

Definition rxne_only (hw : USART1_inputs) : Prop :=
  IT_TXE hw = false /\ IT_RXNE hw = true.

(** ** Sample driver states *)

(** Exponent 0 with a store of one byte. *)
Definition degenerate : CircularBufferObject_t :=
  {| back := 0; front := 0; faultFlag := 0; lengthMask := 0; length := 0;
     memory := Some [x00] |}.

(** Both directions started with capacity 4; two bytes are queued in each. *)
Definition started : CircularUART_t :=
  {| rxBufferObject := wrapped; txBufferObject := wrapped; peripheral := [] |}.

(** Both directions started with capacity 4 and empty. *)
Definition idle : CircularUART_t :=
  {| rxBufferObject := faulted; txBufferObject := faulted; peripheral := [] |}.

(** A mixed run of producer and consumer calls. *)
Definition sample_calls : list call :=
  [PushBack [x01; x02; x03] 3; PopFrontByte x00; PushBackByte x04;
   PushBackByte x05; CheckAndClearFault false;
   PopFront [x00; x00; x00; x00] 4; GetUnreadSize].

Definition txe_pending : USART1_inputs :=
  {| IT_TXE := true; IT_RXNE := false; DR := 0; local_data := x00 |}.

Definition rxne_pending (received : Z) : USART1_inputs :=
  {| IT_TXE := false; IT_RXNE := true; DR := received; local_data := x00 |}.

(** ** Arithmetic of the masked cursors *)

Lemma mod_wrap_down (c x : Z) :
  - c < x < c -> x mod c = if 0 <=? x then x else x + c.
Proof.
  intros Hx. destruct (Z.leb_spec 0 x) as [Hle|Hlt].
  - apply Z.mod_small. lia.
  - symmetry. apply (Z.mod_unique x c (-1) (x + c)); lia.
Qed.

Lemma land_mask (N x : Z) : 0 <= N -> Z.land x (2 ^ N - 1) = x mod 2 ^ N.
Proof.
  intros HN. rewrite <- Z.land_ones by exact HN.
  f_equal. rewrite Z.ones_equiv. lia.
Qed.

Lemma pow2_bounds (N : Z) : 0 <= N <= 16 -> 1 <= 2 ^ N <= 2 ^ 16.
Proof.
  intros HN. split.
  - assert (0 < 2 ^ N) by (apply Z.pow_pos_nonneg; lia). lia.
  - apply Z.pow_le_mono_r; lia.
Qed.

Lemma u16_small (x : Z) : 0 <= x < 2 ^ 16 -> u16 x = x.
Proof. intros Hx. unfold u16. apply Z.mod_small. exact Hx. Qed.

Lemma u32_small (x : Z) : 0 <= x < 2 ^ 32 -> u32 x = x.
Proof. intros Hx. unfold u32. apply Z.mod_small. exact Hx. Qed.

(** The overlaid word gives back the two cursors it was built from. *)
Lemma snapshot_back (b : CircularBufferObject_t) :
  0 <= back b < 2 ^ 16 -> 0 <= front b ->
  Pointers.back (pointers_of_word (first_word b)) = back b.
Proof.
  intros Hb Hf. unfold pointers_of_word, first_word. simpl.
  change 0xFFFF with (Z.ones 16).
  rewrite Z.land_lor_distr_l, !Z.land_ones by lia.
  rewrite Z.shiftl_mul_pow2 by lia.
  rewrite Z.mod_mul by lia. rewrite Z.lor_0_r.
  apply Z.mod_small. exact Hb.
Qed.

Lemma snapshot_front (b : CircularBufferObject_t) :
  0 <= back b < 2 ^ 16 -> 0 <= front b ->
  Pointers.front (pointers_of_word (first_word b)) = front b.
Proof.
  intros Hb Hf. unfold pointers_of_word, first_word. simpl.
  rewrite Z.shiftr_lor.
  rewrite Z.shiftr_shiftl_l by lia. simpl (16 - 16).
  rewrite Z.shiftl_0_r.
  rewrite Z.shiftr_div_pow2 by lia.
  rewrite Z.div_small by exact Hb. reflexivity.
Qed.

(** ** Initialised buffers *)

Lemma assert_true : assert true = Ok tt.
Proof. unfold assert. destruct NDEBUG; reflexivity. Qed.

Lemma assert_accepted (b : CircularBufferObject_t) :
  accepted b -> assert (is_set (memory b)) = Ok tt.
Proof.
  unfold assert. intros [->|Hm]; [reflexivity|].
  destruct (memory b); [destruct NDEBUG; reflexivity|congruence].
Qed.

Lemma memory_accepted (b : CircularBufferObject_t) (m : list byte) :
  memory b = Some m -> accepted b.
Proof. intros Hm. right. congruence. Qed.

Lemma assert_memory (b : CircularBufferObject_t) (m : list byte) :
  memory b = Some m -> assert (is_set (memory b)) = Ok tt.
Proof. intros Hm. apply assert_accepted, (memory_accepted b m Hm). Qed.

Lemma wf_ranges (N : Z) (b : CircularBufferObject_t) :
  wf N b ->
  1 <= lengthMask b + 1 <= 2 ^ 16 /\
  0 <= back b < lengthMask b + 1 /\ 0 <= front b < lengthMask b + 1.
Proof.
  intros [HN Hm _ Hb Hf _ _]. pose proof (pow2_bounds N HN). rewrite Hm in *. lia.
Qed.

Lemma occupancy_range (N : Z) (b : CircularBufferObject_t) :
  wf N b -> 0 <= occupancy b <= lengthMask b.
Proof.
  intros Hwf. destruct (wf_ranges N b Hwf) as (Hc & _ & _).
  unfold occupancy.
  pose proof (Z.mod_pos_bound (back b - front b) (lengthMask b + 1)). lia.
Qed.

(** Unless the exponent is 0, the store holds a whole turn of the
    cursors. *)
Lemma store_size (N : Z) (b : CircularBufferObject_t) (m : list byte) :
  wf N b -> memory b = Some m -> 0 < lengthMask b ->
  length b = lengthMask b + 1 /\
  lengthMask b + 1 <= Z.of_nat (Datatypes.length m).
Proof.
  intros [HN Hmask Hlen _ _ _ (m' & Hm' & Hsz)] Hm Hpos.
  rewrite Hm in Hm'. injection Hm' as <-.
  destruct (Z.eqb_spec N 0) as [->|_]; [simpl in Hmask|]; lia.
Qed.

Lemma getUnreadSize_wf (N : Z) (b : CircularBufferObject_t) :
  wf N b -> CircularBuffer_getUnreadSize b = Ok (occupancy b).
Proof.
  intros Hwf. pose proof (occupancy_range N b Hwf) as Hocc.
  destruct (wf_ranges N b Hwf) as (Hc & Hb & Hf).
  destruct Hwf as [HN Hm _ _ _ _ (m & Hmem & _)].
  unfold CircularBuffer_getUnreadSize.
  rewrite (assert_memory b m Hmem). cbv [bind].
  rewrite snapshot_back, snapshot_front by lia.
  f_equal. unfold occupancy in *.
  rewrite Hm in *. rewrite land_mask by lia.
  replace (2 ^ N - 1 + 1) with (2 ^ N) in * by lia.
  apply u16_small. lia.
Qed.

Lemma init_fresh (N : Z) (bufferMemory : option (list byte)) :
  0 <= N <= 16 -> CircularBuffer_init bufferMemory N = Ok (fresh N bufferMemory).
Proof.
  intros HN. pose proof (pow2_bounds N HN) as Hp.
  unfold CircularBuffer_init. rewrite assert_true. cbv [bind].
  replace (N <=? 16) with true by (symmetry; apply Z.leb_le; lia).
  rewrite assert_true.
  unfold shl_ul.
  replace ((0 <=? N) && (N <? 32))%bool with true
    by (symmetry; apply andb_true_iff; split; [apply Z.leb_le | apply Z.ltb_lt]; lia).
  rewrite Z.shiftl_mul_pow2, Z.mul_1_l by lia.
  assert (2 ^ 16 < 2 ^ 32) by (apply Z.pow_lt_mono_r; lia).
  rewrite (u32_small (2 ^ N)) by lia.
  rewrite (u32_small (2 ^ N - 1)) by lia.
  rewrite (u16_small (2 ^ N - 1)) by lia.
  replace (2 ^ N - 1 + 1) with (2 ^ N) by lia.
  rewrite (u32_small (2 ^ N)) by lia.
  reflexivity.
Qed.

Lemma fresh_wf (N : Z) (m : list byte) :
  0 <= N <= 16 ->
  (if N =? 0 then 0 else 2 ^ N) <= Z.of_nat (Datatypes.length m) ->
  wf N (fresh N (Some m)).
Proof.
  intros HN Hm. pose proof (pow2_bounds N HN) as Hp.
  split; simpl; try lia; eauto.
Qed.

Lemma fresh_occupancy (N : Z) (bufferMemory : option (list byte)) :
  0 <= N -> occupancy (fresh N bufferMemory) = 0.
Proof.
  intros HN. unfold occupancy. simpl. apply Z.mod_0_l.
  assert (0 < 2 ^ N) by (apply Z.pow_pos_nonneg; lia). lia.
Qed.

(** ** The queue a buffer holds *)

Lemma contents_length (b : CircularBufferObject_t) (m : list byte) :
  memory b = Some m ->
  Datatypes.length (contents b) = Z.to_nat (occupancy b).
Proof.
  intros Hm. unfold contents. rewrite Hm.
  rewrite length_fmap, length_seq. reflexivity.
Qed.

(** ** Single-element push *)

Lemma pushBackByte_accepts (N : Z) (b : CircularBufferObject_t) (m : list byte) (x : byte) :
  wf N b -> memory b = Some m -> occupancy b < lengthMask b ->
  CircularBuffer_pushBackByte b x = Ok (true, pushed b m x).
Proof.
  intros Hwf Hm Hocc. destruct (wf_ranges N b Hwf) as (Hc & Hb & Hf).
  unfold CircularBuffer_pushBackByte.
  rewrite (assert_memory b m Hm), (getUnreadSize_wf N b Hwf). cbv [bind].
  replace (occupancy b <? lengthMask b) with true by (symmetry; apply Z.ltb_lt; lia).
  destruct Hwf as [HN Hmask Hlen _ _ _ (m' & Hm' & Hsz)].
  rewrite Hm in Hm'. injection Hm' as <-.
  assert (N <> 0) as HN0.
  { intros ->. rewrite Hmask in Hocc. simpl in Hocc.
    pose proof (Z.mod_pos_bound (back b - front b) (lengthMask b + 1)).
    unfold occupancy in Hocc. lia. }
  apply Z.eqb_neq in HN0. rewrite HN0 in Hlen.
  unfold store. rewrite Hm.
  destruct (decide (Z.to_nat (back b) < Datatypes.length m)%nat) as [_|Hn]; [|lia].
  unfold pushed. do 3 f_equal. simpl.
  rewrite Hmask, land_mask by lia.
  replace (2 ^ N - 1 + 1) with (2 ^ N) by lia.
  apply u16_small.
  pose proof (Z.mod_pos_bound (back b + 1) (2 ^ N)). lia.
Qed.

Lemma pushBackByte_rejects (N : Z) (b : CircularBufferObject_t) (x : byte) :
  wf N b -> occupancy b = lengthMask b ->
  CircularBuffer_pushBackByte b x = Ok (false, set_faultFlag 1 b).
Proof.
  intros Hwf Hocc. destruct (wf_memory N b Hwf) as (m & Hm & _).
  unfold CircularBuffer_pushBackByte.
  rewrite (assert_memory b m Hm), (getUnreadSize_wf N b Hwf). cbv [bind].
  rewrite Hocc, Z.ltb_irrefl. reflexivity.
Qed.

Lemma mod_succ (c d : Z) : 0 < c -> d mod c < c - 1 -> (d + 1) mod c = d mod c + 1.
Proof.
  intros Hc Hd. rewrite <- Zplus_mod_idemp_l.
  apply Z.mod_small. pose proof (Z.mod_pos_bound d c Hc). lia.
Qed.

Lemma mod_pred (c d : Z) : 0 < c -> 0 < d mod c -> (d - 1) mod c = d mod c - 1.
Proof.
  intros Hc Hd. rewrite <- Zminus_mod_idemp_l.
  apply Z.mod_small. pose proof (Z.mod_pos_bound d c Hc). lia.
Qed.

Lemma slot_at_occupancy (N : Z) (b : CircularBufferObject_t) :
  wf N b -> (front b + occupancy b) mod (lengthMask b + 1) = back b.
Proof.
  intros Hwf. destruct (wf_ranges N b Hwf) as (Hc & Hb & Hf).
  unfold occupancy. rewrite Zplus_mod_idemp_r.
  replace (front b + (back b - front b)) with (back b) by lia.
  apply Z.mod_small. exact Hb.
Qed.

Lemma slot_offset (c f i : Z) :
  0 <= i < c -> ((f + i) mod c - f) mod c = i.
Proof.
  intros Hi. rewrite Zminus_mod_idemp_l.
  replace (f + i - f) with i by lia. apply Z.mod_small. exact Hi.
Qed.

(** An unread byte never sits where the next write goes. *)
Lemma slot_not_back (N : Z) (b : CircularBufferObject_t) (i : nat) :
  wf N b -> Z.of_nat i < occupancy b -> slot b i <> Z.to_nat (back b).
Proof.
  intros Hwf Hi Heq. pose proof (occupancy_range N b Hwf) as Hocc.
  destruct (wf_ranges N b Hwf) as (Hc & Hb & Hf).
  unfold slot in Heq. apply Z2Nat.inj in Heq; [| |lia].
  2:{ pose proof (Z.mod_pos_bound (front b + Z.of_nat i) (lengthMask b + 1)). lia. }
  assert (occupancy b = Z.of_nat i); [|lia].
  unfold occupancy. rewrite <- Heq. apply slot_offset. lia.
Qed.

Lemma occupancy_zero (N : Z) (b : CircularBufferObject_t) :
  wf N b -> (occupancy b = 0 <-> back b = front b).
Proof.
  intros Hwf. destruct (wf_ranges N b Hwf) as (Hc & Hb & Hf).
  unfold occupancy. rewrite mod_wrap_down by lia.
  destruct (Z.leb_spec 0 (back b - front b)); lia.
Qed.

Lemma pushed_wf (N : Z) (b : CircularBufferObject_t) (m : list byte) (x : byte) :
  wf N b -> memory b = Some m -> wf N (pushed b m x).
Proof.
  intros Hwf Hm. destruct (wf_ranges N b Hwf) as (Hc & Hb & Hf).
  destruct Hwf as [HN Hmask Hlen Hbk Hfr Hfl (m' & Hm' & Hsz)].
  rewrite Hm in Hm'. injection Hm' as <-.
  split; simpl; try assumption.
  - pose proof (Z.mod_pos_bound (back b + 1) (lengthMask b + 1)). lia.
  - exists (<[Z.to_nat (back b) := x]> m). split; [reflexivity|].
    rewrite length_insert. exact Hsz.
Qed.

Lemma pushed_occupancy (N : Z) (b : CircularBufferObject_t) (m : list byte) (x : byte) :
  wf N b -> occupancy b < lengthMask b ->
  occupancy (pushed b m x) = occupancy b + 1.
Proof.
  intros Hwf Hocc. destruct (wf_ranges N b Hwf) as (Hc & Hb & Hf).
  unfold occupancy in *. simpl.
  rewrite Zminus_mod_idemp_l.
  replace (back b + 1 - front b) with (back b - front b + 1) by lia.
  apply mod_succ; lia.
Qed.

Lemma pushed_contents (N : Z) (b : CircularBufferObject_t) (m : list byte) (x : byte) :
  wf N b -> memory b = Some m -> occupancy b < lengthMask b ->
  contents (pushed b m x) = contents b ++ [x].
Proof.
  intros Hwf Hm Hocc. pose proof (occupancy_range N b Hwf) as Hrange.
  destruct (wf_ranges N b Hwf) as (Hc & Hb & Hf).
  assert (Z.to_nat (back b) < Datatypes.length m)%nat as Hbm.
  { destruct Hwf as [HN Hmask Hlen _ _ _ (m' & Hm' & Hsz)].
    rewrite Hm in Hm'. injection Hm' as <-.
    destruct (Z.eqb_spec N 0) as [->|_]; [simpl in Hmask|]; lia. }
  unfold contents at 1. simpl memory.
  rewrite (pushed_occupancy N b m x Hwf Hocc).
  replace (Z.to_nat (occupancy b + 1)) with (S (Z.to_nat (occupancy b))) by lia.
  rewrite seq_S, fmap_app. simpl. f_equal.
  - unfold contents. rewrite Hm. apply list_fmap_ext.
    intros k i Hk. apply lookup_seq in Hk as [Hi Hk]. simpl in Hi. subst k.
    change (slot (pushed b m x) i) with (slot b i).
    rewrite list_lookup_insert_ne; [reflexivity|].
    intros Heq. symmetry in Heq. revert Heq. apply (slot_not_back N); [exact Hwf|lia].
  - f_equal. unfold slot. simpl.
    rewrite Z2Nat.id by lia. rewrite (slot_at_occupancy N b Hwf).
    rewrite list_lookup_insert_eq by exact Hbm. reflexivity.
Qed.

(** ** Single-element pop *)

Lemma popFrontByte_empty (b : CircularBufferObject_t) (d : byte) :
  accepted b -> back b = front b ->
  CircularBuffer_popFrontByte b d = Ok (false, b, d).
Proof.
  intros Hacc Heq. unfold CircularBuffer_popFrontByte.
  rewrite (assert_accepted b Hacc). cbv [bind].
  rewrite Heq, Z.eqb_refl. reflexivity.
Qed.

Lemma popFrontByte_takes (N : Z) (b : CircularBufferObject_t) (m : list byte) (d : byte) :
  wf N b -> memory b = Some m -> 0 < occupancy b ->
  exists x, m !! Z.to_nat (front b) = Some x /\
            CircularBuffer_popFrontByte b d = Ok (true, popped b, x).
Proof.
  intros Hwf Hm Hocc. destruct (wf_ranges N b Hwf) as (Hc & Hb & Hf).
  pose proof (occupancy_zero N b Hwf) as Hz.
  destruct Hwf as [HN Hmask Hlen _ _ _ (m' & Hm' & Hsz)].
  rewrite Hm in Hm'. injection Hm' as <-.
  assert (N <> 0) as HN0.
  { intros ->. rewrite Hmask in *. simpl in *. lia. }
  apply Z.eqb_neq in HN0. rewrite HN0 in Hlen.
  destruct (lookup_lt_is_Some_2 m (Z.to_nat (front b))) as [x Hx]; [lia|].
  exists x. split; [exact Hx|].
  unfold CircularBuffer_popFrontByte.
  rewrite (assert_memory b m Hm). cbv [bind].
  replace (back b =? front b) with false by (symmetry; apply Z.eqb_neq; lia).
  simpl negb. cbv iota. unfold load. rewrite Hm, Hx.
  unfold popped. do 4 f_equal.
  rewrite Hmask, land_mask by lia.
  replace (2 ^ N - 1 + 1) with (2 ^ N) by lia.
  apply u16_small.
  pose proof (Z.mod_pos_bound (front b + 1) (2 ^ N)). lia.
Qed.

Lemma popped_wf (N : Z) (b : CircularBufferObject_t) :
  wf N b -> wf N (popped b).
Proof.
  intros Hwf. destruct (wf_ranges N b Hwf) as (Hc & Hb & Hf).
  destruct Hwf as [HN Hmask Hlen Hbk Hfr Hfl Hmem].
  split; simpl; try assumption.
  pose proof (Z.mod_pos_bound (front b + 1) (lengthMask b + 1)). lia.
Qed.

Lemma popped_occupancy (N : Z) (b : CircularBufferObject_t) :
  wf N b -> 0 < occupancy b -> occupancy (popped b) = occupancy b - 1.
Proof.
  intros Hwf Hocc. destruct (wf_ranges N b Hwf) as (Hc & Hb & Hf).
  unfold occupancy in *. simpl.
  rewrite Zminus_mod_idemp_r.
  replace (back b - (front b + 1)) with (back b - front b - 1) by lia.
  apply mod_pred; lia.
Qed.

Lemma popped_contents (N : Z) (b : CircularBufferObject_t) (m : list byte) (x : byte) :
  wf N b -> memory b = Some m -> 0 < occupancy b ->
  m !! Z.to_nat (front b) = Some x ->
  contents b = x :: contents (popped b).
Proof.
  intros Hwf Hm Hocc Hx. destruct (wf_ranges N b Hwf) as (Hc & Hb & Hf).
  unfold contents at 2. simpl memory. rewrite Hm.
  rewrite (popped_occupancy N b Hwf Hocc).
  unfold contents. rewrite Hm.
  replace (Z.to_nat (occupancy b)) with (S (Z.to_nat (occupancy b - 1))) by lia.
  simpl seq. rewrite fmap_cons. f_equal.
  - unfold slot. rewrite Z.add_0_r, Z.mod_small by lia. rewrite Hx. reflexivity.
  - rewrite <- fmap_S_seq, <- list_fmap_compose. apply list_fmap_ext.
    intros k i _. simpl. do 2 f_equal. unfold slot. simpl.
    rewrite Zplus_mod_idemp_l. do 2 f_equal. lia.
Qed.

(** ** Runs of single pushes *)

Lemma load_nat (l : list byte) (i : nat) (x : byte) :
  l !! i = Some x -> load (Some l) (Z.of_nat i) = Ok x.
Proof. intros Hx. unfold load. rewrite Nat2Z.id, Hx. reflexivity. Qed.

Lemma set_memory_id (b : CircularBufferObject_t) (m : list byte) :
  memory b = Some m -> set_back (back b) (set_memory m b) = b.
Proof. destruct b. simpl. intros ->. reflexivity. Qed.

Lemma push_each_app (n1 n2 : nat) (b : CircularBufferObject_t)
      (data : list byte) (off : nat) :
  push_each (n1 + n2) b data off =
  let* (ok, b1) := push_each n1 b data off in
  if ok then push_each n2 b1 data (off + n1) else Ok (false, b1).
Proof.
  revert b off. induction n1 as [|n1 IH]; intros b off.
  - simpl. rewrite Nat.add_0_r. reflexivity.
  - simpl. destruct (load (Some data) (Z.of_nat off)) as [x| | |]; try reflexivity.
    simpl. destruct (CircularBuffer_pushBackByte b x) as [[[] b1]| | |];
      try reflexivity.
    simpl. rewrite IH. replace (S off + n1)%nat with (off + S n1)%nat by lia.
    reflexivity.
Qed.

(** As long as there is room, every push of a run is accepted and the
    bytes join the queue in order. *)
Lemma push_each_accepts (N : Z) (n : nat) :
  forall (b : CircularBufferObject_t) (data : list byte) (off : nat),
    wf N b ->
    occupancy b + Z.of_nat n <= lengthMask b ->
    (off + n <= Datatypes.length data)%nat ->
    exists b',
      push_each n b data off = Ok (true, b') /\
      wf N b' /\
      occupancy b' = occupancy b + Z.of_nat n /\
      contents b' = contents b ++ take n (drop off data) /\
      front b' = front b /\ faultFlag b' = faultFlag b /\
      lengthMask b' = lengthMask b /\ length b' = length b.
Proof.
  induction n as [|n IH]; intros b data off Hwf Hroom Hdata.
  - exists b. simpl. rewrite app_nil_r.
    split; [reflexivity|]. split; [exact Hwf|]. repeat split; lia.
  - destruct (wf_memory N b Hwf) as (m & Hm & _).
    destruct (lookup_lt_is_Some_2 data off) as [x Hx]; [lia|].
    assert (occupancy b < lengthMask b) as Hlt by lia.
    destruct (IH (pushed b m x) data (S off)) as (b' & Hrun & Hwf' & Ho & Hc & Hf & Hfl & Hk & Hl).
    + apply pushed_wf; assumption.
    + rewrite (pushed_occupancy N) by assumption. simpl. lia.
    + lia.
    + exists b'. simpl push_each.
      rewrite (load_nat data off x Hx). cbv [bind].
      rewrite (pushBackByte_accepts N b m x Hwf Hm Hlt).
      split; [exact Hrun|]. split; [exact Hwf'|].
      rewrite (pushed_occupancy N) in Ho by assumption.
      rewrite (pushed_contents N) in Hc by assumption.
      repeat split; try assumption; try lia.
      rewrite Hc, <- app_assoc. f_equal.
      rewrite (drop_S data x off Hx). reflexivity.
Qed.

(** ** Bulk push *)

(** A copy that stays below the physical end of the store is the same
    as that many single pushes. *)
Lemma memcpy_bytes_push_each (N : Z) (n : nat) :
  forall (b : CircularBufferObject_t) (m data : list byte) (doff off : nat),
    wf N b -> memory b = Some m ->
    (0 < n -> doff = Z.to_nat (back b))%nat ->
    back b + Z.of_nat n <= lengthMask b + 1 ->
    occupancy b + Z.of_nat n <= lengthMask b ->
    (off + n <= Datatypes.length data)%nat ->
    exists m',
      memcpy_bytes n m doff data off = Ok m' /\
      push_each n b data off
      = Ok (true, set_back ((back b + Z.of_nat n) mod (lengthMask b + 1))
                           (set_memory m' b)).
Proof.
  induction n as [|n IH]; intros b m data doff off Hwf Hm Hdoff Hend Hroom Hdata;
    destruct (wf_ranges N b Hwf) as (Hc & Hb & Hf).
  - exists m. split; [reflexivity|]. simpl.
    rewrite Z.add_0_r, Z.mod_small by lia.
    rewrite (set_memory_id b m Hm). reflexivity.
  - destruct (lookup_lt_is_Some_2 data off) as [x Hx]; [lia|].
    assert (occupancy b < lengthMask b) as Hlt by lia.
    rewrite Hdoff by lia.
    assert (Z.to_nat (back b) < Datatypes.length m)%nat as Hbm.
    { pose proof (occupancy_range N b Hwf).
      destruct (store_size N b m Hwf Hm); lia. }
    destruct (IH (pushed b m x) (<[Z.to_nat (back b) := x]> m) data
                 (S (Z.to_nat (back b))) (S off)) as (m' & Hcopy & Hrun).
    + apply pushed_wf; assumption.
    + reflexivity.
    + intros Hn. simpl. rewrite Z.mod_small by lia. lia.
    + simpl. pose proof (Z.mod_pos_bound (back b + 1) (lengthMask b + 1)).
      destruct n as [|n]; [lia|]. rewrite Z.mod_small by lia. lia.
    + rewrite (pushed_occupancy N) by assumption. simpl. lia.
    + lia.
    + exists m'. split.
      * simpl. rewrite Hx.
        destruct (decide (Z.to_nat (back b) < Datatypes.length m)%nat); [|lia].
        exact Hcopy.
      * simpl push_each. rewrite (load_nat data off x Hx). cbv [bind].
        rewrite (pushBackByte_accepts N b m x Hwf Hm Hlt).
        rewrite Hrun. do 2 f_equal.
        unfold pushed, set_back, set_memory. simpl. f_equal.
        rewrite Zplus_mod_idemp_l. f_equal. lia.
Qed.

Lemma pushBack_loop_done (fuel : nat) (b : CircularBufferObject_t)
      (data : list byte) (off : Z) :
  pushBack_loop fuel b data off 0 = Ok b.
Proof. destruct fuel; reflexivity. Qed.

(** One turn of the loop: it copies up to the physical end of the store,
    which is what that many single pushes do. *)
Lemma pushBack_loop_step (N : Z) (fuel : nat) (b : CircularBufferObject_t)
      (data : list byte) (off lenTotal : Z) :
  wf N b -> 0 < lenTotal -> occupancy b + lenTotal <= lengthMask b ->
  0 <= off -> off + lenTotal <= Z.of_nat (Datatypes.length data) ->
  let p := Z.min lenTotal (lengthMask b + 1 - back b) in
  exists b1,
    push_each (Z.to_nat p) b data (Z.to_nat off) = Ok (true, b1) /\
    pushBack_loop (S fuel) b data off lenTotal
    = pushBack_loop fuel b1 data (off + p) (lenTotal - p) /\
    back b1 = (back b + p) mod (lengthMask b + 1) /\
    wf N b1 /\ occupancy b1 = occupancy b + p /\
    lengthMask b1 = lengthMask b.
Proof.
  intros Hwf Hpos Hroom Hoff Hdata p.
  pose proof (occupancy_range N b Hwf) as Hocc.
  destruct (wf_ranges N b Hwf) as (Hc & Hb & Hf).
  destruct (wf_memory N b Hwf) as (m & Hm & _).
  destruct (store_size N b m Hwf Hm) as (Hlen & Hsz); [lia|].
  assert (0 < p <= lenTotal /\ back b + p <= lengthMask b + 1) as (Hp & Hpe)
    by (unfold p; lia).
  destruct (memcpy_bytes_push_each N (Z.to_nat p) b m data
              (Z.to_nat (back b)) (Z.to_nat off))
    as (m' & Hcopy & Hrun); try assumption; try lia; try reflexivity.
  destruct (push_each_accepts N (Z.to_nat p) b data (Z.to_nat off))
    as (b1 & Hrun' & Hwf1 & Ho1 & _ & _ & _ & Hk1 & _); try assumption; try lia.
  rewrite Hrun in Hrun'. injection Hrun' as <-.
  rewrite Z2Nat.id in * by lia.
  eexists. split; [exact Hrun|].
  split; [|split; [reflexivity|split; [exact Hwf1|split; [exact Ho1|exact Hk1]]]].
  simpl pushBack_loop.
  replace (0 <? lenTotal) with true by (symmetry; apply Z.ltb_lt; lia).
  assert (2 ^ 16 < 2 ^ 32) by (apply Z.pow_lt_mono_r; lia).
  rewrite Hlen, (u32_small (lengthMask b + 1 - back b)) by lia.
  assert ((if lengthMask b + 1 - back b <? lenTotal
           then u16 (lengthMask b + 1 - back b) else lenTotal) = p) as ->.
  { destruct (Z.ltb_spec (lengthMask b + 1 - back b) lenTotal).
    - rewrite u16_small by lia. unfold p. lia.
    - unfold p. lia. }
  rewrite Hm. unfold memcpy. rewrite Hcopy. cbv [bind].
  rewrite (u16_small (lenTotal - p)) by lia.
  f_equal. simpl. f_equal.
  destruct Hwf as [HN Hmask _ _ _ _ _].
  rewrite Hmask, land_mask by lia.
  replace (2 ^ N - 1 + 1) with (2 ^ N) by lia.
  apply u16_small. pose proof (Z.mod_pos_bound (back b + p) (2 ^ N)). lia.
Qed.

(** The loop ends within two turns and does what single pushes do. *)
Lemma pushBack_loop_spec (N : Z) (fuel : nat) (b : CircularBufferObject_t)
      (data : list byte) (off lenTotal : Z) :
  wf N b -> 0 <= lenTotal -> occupancy b + lenTotal <= lengthMask b ->
  0 <= off -> off + lenTotal <= Z.of_nat (Datatypes.length data) ->
  (2 <= fuel)%nat ->
  exists b',
    push_each (Z.to_nat lenTotal) b data (Z.to_nat off) = Ok (true, b') /\
    pushBack_loop fuel b data off lenTotal = Ok b'.
Proof.
  intros Hwf Hlen Hroom Hoff Hdata Hfuel.
  destruct (Z.eq_dec lenTotal 0) as [->|Hne].
  { exists b. split; [reflexivity|apply pushBack_loop_done]. }
  destruct fuel as [|[|fuel]]; try lia.
  pose proof (occupancy_range N b Hwf) as Hocc.
  destruct (wf_ranges N b Hwf) as (Hc & Hb & Hf).
  destruct (pushBack_loop_step N (S fuel) b data off lenTotal)
    as (b1 & Hrun1 & Hloop1 & Hback1 & Hwf1 & Ho1 & Hk1); try assumption; try lia.
  set (p := Z.min lenTotal (lengthMask b + 1 - back b)) in *.
  rewrite Hloop1.
  destruct (Z.eq_dec (lenTotal - p) 0) as [Hz|Hr].
  { exists b1. rewrite Hz, pushBack_loop_done.
    replace lenTotal with p by lia. split; [exact Hrun1|reflexivity]. }
  assert (p = lengthMask b + 1 - back b) as Hp by (unfold p in *; lia).
  assert (back b1 = 0) as Hb1.
  { rewrite Hback1, Hp.
    replace (back b + (lengthMask b + 1 - back b)) with (lengthMask b + 1) by lia.
    apply Z.mod_same. lia. }
  destruct (pushBack_loop_step N fuel b1 data (off + p) (lenTotal - p))
    as (b2 & Hrun2 & Hloop2 & _ & _ & _ & _); try assumption; try lia.
  rewrite Hb1, Hk1 in *.
  replace (Z.min (lenTotal - p) (lengthMask b + 1 - 0)) with (lenTotal - p) in * by lia.
  rewrite Hloop2, Z.sub_diag, pushBack_loop_done.
  exists b2. split; [|reflexivity].
  replace (Z.to_nat lenTotal) with (Z.to_nat p + Z.to_nat (lenTotal - p))%nat by lia.
  rewrite push_each_app, Hrun1. cbv [bind].
  replace (Z.to_nat off + Z.to_nat p)%nat with (Z.to_nat (off + p)) by lia.
  exact Hrun2.
Qed.

(** ** Runs of single pops *)

Lemma store_nat (l : list byte) (i : nat) (x : byte) :
  (i < Datatypes.length l)%nat -> store (Some l) (Z.of_nat i) x = Ok (<[i := x]> l).
Proof.
  intros Hi. unfold store. rewrite Nat2Z.id.
  destruct (decide (i < Datatypes.length l)%nat); [reflexivity|lia].
Qed.

Lemma pop_each_app (n1 n2 : nat) (b : CircularBufferObject_t)
      (data : list byte) (off : nat) :
  pop_each (n1 + n2) b data off =
  let* (ok, b1, data1) := pop_each n1 b data off in
  if ok then pop_each n2 b1 data1 (off + n1) else Ok (false, b1, data1).
Proof.
  revert b data off. induction n1 as [|n1 IH]; intros b data off.
  - simpl. rewrite Nat.add_0_r. reflexivity.
  - simpl. destruct (load (Some data) (Z.of_nat off)) as [x| | |]; try reflexivity.
    simpl. destruct (CircularBuffer_popFrontByte b x) as [[[[] b1] y]| | |];
      try reflexivity.
    simpl. destruct (store (Some data) (Z.of_nat off) y) as [data1| | |];
      try reflexivity.
    simpl. rewrite IH. replace (S off + n1)%nat with (off + S n1)%nat by lia.
    reflexivity.
Qed.

(** As long as bytes are unread, every pop of a run succeeds and the
    bytes leave the queue in order. *)
Lemma pop_each_takes (N : Z) (n : nat) :
  forall (b : CircularBufferObject_t) (data : list byte) (off : nat),
    wf N b ->
    Z.of_nat n <= occupancy b ->
    (off + n <= Datatypes.length data)%nat ->
    exists b' data',
      pop_each n b data off = Ok (true, b', data') /\
      wf N b' /\
      occupancy b' = occupancy b - Z.of_nat n /\
      data' = take off data ++ take n (contents b) ++ drop (off + n) data /\
      contents b' = drop n (contents b) /\
      back b' = back b /\ faultFlag b' = faultFlag b /\
      lengthMask b' = lengthMask b /\ length b' = length b /\
      memory b' = memory b.
Proof.
  induction n as [|n IH]; intros b data off Hwf Havail Hdata.
  - exists b, data. simpl. rewrite Nat.add_0_r, take_drop.
    split; [reflexivity|]. split; [exact Hwf|]. repeat split; lia.
  - destruct (wf_memory N b Hwf) as (m & Hm & _).
    destruct (lookup_lt_is_Some_2 data off) as [d Hd]; [lia|].
    assert (0 < occupancy b) as Hpos by lia.
    destruct (popFrontByte_takes N b m d Hwf Hm Hpos) as (x & Hx & Hpop).
    destruct (IH (popped b) (<[off := x]> data) (S off))
      as (b' & data' & Hrun & Hwf' & Ho & Hd' & Hc & Hb & Hfl & Hk & Hl & Hmem).
    + apply popped_wf; assumption.
    + rewrite (popped_occupancy N) by assumption. lia.
    + rewrite length_insert. lia.
    + exists b', data'. simpl pop_each.
      rewrite (load_nat data off d Hd). cbv [bind].
      rewrite Hpop, store_nat by lia.
      split; [exact Hrun|]. split; [exact Hwf'|].
      rewrite (popped_occupancy N) in Ho by assumption.
      rewrite (popped_contents N b m x Hwf Hm Hpos Hx).
      repeat split; try assumption; try lia.
      rewrite Hd'. simpl.
      rewrite (take_S_r (<[off := x]> data) off x)
        by (apply list_lookup_insert_eq; lia).
      rewrite take_insert_ge by lia.
      rewrite drop_insert_lt by lia.
      rewrite <- app_assoc. simpl.
      replace (off + S n)%nat with (S (off + n)) by lia. reflexivity.
Qed.

(** ** Bulk pop *)

Lemma memcpy_bytes_pop_each (N : Z) (n : nat) :
  forall (b : CircularBufferObject_t) (m data : list byte) (doff soff : nat),
    wf N b -> memory b = Some m ->
    (0 < n -> soff = Z.to_nat (front b))%nat ->
    front b + Z.of_nat n <= lengthMask b + 1 ->
    Z.of_nat n <= occupancy b ->
    (doff + n <= Datatypes.length data)%nat ->
    exists data',
      memcpy_bytes n data doff m soff = Ok data' /\
      pop_each n b data doff
      = Ok (true, set_front ((front b + Z.of_nat n) mod (lengthMask b + 1)) b,
            data').
Proof.
  induction n as [|n IH]; intros b m data doff soff Hwf Hm Hsoff Hend Havail Hdata;
    destruct (wf_ranges N b Hwf) as (Hc & Hb & Hf).
  - exists data. split; [reflexivity|]. simpl.
    rewrite Z.add_0_r, Z.mod_small by lia.
    destruct b; reflexivity.
  - destruct (lookup_lt_is_Some_2 data doff) as [d Hd]; [lia|].
    assert (0 < occupancy b) as Hpos by lia.
    destruct (popFrontByte_takes N b m d Hwf Hm Hpos) as (x & Hx & Hpop).
    rewrite Hsoff by lia.
    destruct (IH (popped b) m (<[doff := x]> data) (S doff)
                 (S (Z.to_nat (front b)))) as (data' & Hcopy & Hrun).
    + apply popped_wf; assumption.
    + exact Hm.
    + intros Hn. simpl. rewrite Z.mod_small by lia. lia.
    + simpl. pose proof (Z.mod_pos_bound (front b + 1) (lengthMask b + 1)).
      destruct n as [|n]; [lia|]. rewrite Z.mod_small by lia. lia.
    + rewrite (popped_occupancy N) by assumption. lia.
    + rewrite length_insert. lia.
    + exists data'. split.
      * simpl. rewrite Hx.
        destruct (decide (doff < Datatypes.length data)%nat); [|lia].
        exact Hcopy.
      * simpl pop_each. rewrite (load_nat data doff d Hd). cbv [bind].
        rewrite Hpop, store_nat by lia.
        rewrite Hrun. do 3 f_equal.
        unfold popped, set_front. simpl. f_equal.
        rewrite Zplus_mod_idemp_l. f_equal. lia.
Qed.

Lemma popFront_loop_done (fuel : nat) (b : CircularBufferObject_t)
      (data : list byte) (off : Z) :
  popFront_loop fuel b data off 0 = Ok (b, data).
Proof. destruct fuel; reflexivity. Qed.

Lemma popFront_loop_step (N : Z) (fuel : nat) (b : CircularBufferObject_t)
      (data : list byte) (off lenTotal : Z) :
  wf N b -> 0 < lenTotal -> lenTotal <= occupancy b ->
  0 <= off -> off + lenTotal <= Z.of_nat (Datatypes.length data) ->
  let p := Z.min lenTotal (lengthMask b + 1 - front b) in
  exists b1 data1,
    pop_each (Z.to_nat p) b data (Z.to_nat off) = Ok (true, b1, data1) /\
    popFront_loop (S fuel) b data off lenTotal
    = popFront_loop fuel b1 data1 (off + p) (lenTotal - p) /\
    front b1 = (front b + p) mod (lengthMask b + 1) /\
    wf N b1 /\ occupancy b1 = occupancy b - p /\
    lengthMask b1 = lengthMask b /\
    Datatypes.length data1 = Datatypes.length data.
Proof.
  intros Hwf Hpos Havail Hoff Hdata p.
  pose proof (occupancy_range N b Hwf) as Hocc.
  destruct (wf_ranges N b Hwf) as (Hc & Hb & Hf).
  destruct (wf_memory N b Hwf) as (m & Hm & _).
  destruct (store_size N b m Hwf Hm) as (Hlen & Hsz); [lia|].
  assert (0 < p <= lenTotal /\ front b + p <= lengthMask b + 1) as (Hp & Hpe)
    by (unfold p; lia).
  destruct (memcpy_bytes_pop_each N (Z.to_nat p) b m data
              (Z.to_nat off) (Z.to_nat (front b)))
    as (data1 & Hcopy & Hrun); try assumption; try lia; try reflexivity.
  destruct (pop_each_takes N (Z.to_nat p) b data (Z.to_nat off))
    as (b1 & data1' & Hrun' & Hwf1 & Ho1 & Hd1 & _ & _ & _ & Hk1 & _);
    try assumption; try lia.
  rewrite Hrun in Hrun'. injection Hrun' as <- <-.
  rewrite Z2Nat.id in * by lia.
  eexists _, data1. split; [exact Hrun|].
  split; [|split; [reflexivity|split; [exact Hwf1|split; [exact Ho1|split; [exact Hk1|]]]]].
  - simpl popFront_loop.
    replace (0 <? lenTotal) with true by (symmetry; apply Z.ltb_lt; lia).
    assert (2 ^ 16 < 2 ^ 32) by (apply Z.pow_lt_mono_r; lia).
    rewrite Hlen, (u32_small (lengthMask b + 1 - front b)) by lia.
    assert ((if lengthMask b + 1 - front b <? lenTotal
             then u16 (lengthMask b + 1 - front b) else lenTotal) = p) as ->.
    { destruct (Z.ltb_spec (lengthMask b + 1 - front b) lenTotal).
      - rewrite u16_small by lia. unfold p. lia.
      - unfold p. lia. }
    rewrite Hm. unfold memcpy. rewrite Hcopy. cbv [bind].
    rewrite (u16_small (lenTotal - p)) by lia.
    f_equal. f_equal.
    destruct Hwf as [HN Hmask _ _ _ _ _].
    rewrite Hmask, land_mask by lia.
    replace (2 ^ N - 1 + 1) with (2 ^ N) by lia.
    apply u16_small. pose proof (Z.mod_pos_bound (front b + p) (2 ^ N)). lia.
  - pose proof (contents_length b m Hm) as Hcl.
    rewrite Hd1, !length_app, length_take, length_take, length_drop. lia.
Qed.

Lemma popFront_loop_spec (N : Z) (fuel : nat) (b : CircularBufferObject_t)
      (data : list byte) (off lenTotal : Z) :
  wf N b -> 0 <= lenTotal -> lenTotal <= occupancy b ->
  0 <= off -> off + lenTotal <= Z.of_nat (Datatypes.length data) ->
  (2 <= fuel)%nat ->
  exists b' data',
    pop_each (Z.to_nat lenTotal) b data (Z.to_nat off) = Ok (true, b', data') /\
    popFront_loop fuel b data off lenTotal = Ok (b', data').
Proof.
  intros Hwf Hlen Havail Hoff Hdata Hfuel.
  destruct (Z.eq_dec lenTotal 0) as [->|Hne].
  { exists b, data. split; [reflexivity|apply popFront_loop_done]. }
  destruct fuel as [|[|fuel]]; try lia.
  pose proof (occupancy_range N b Hwf) as Hocc.
  destruct (wf_ranges N b Hwf) as (Hc & Hb & Hf).
  destruct (popFront_loop_step N (S fuel) b data off lenTotal)
    as (b1 & data1 & Hrun1 & Hloop1 & Hfront1 & Hwf1 & Ho1 & Hk1 & Hl1);
    try assumption; try lia.
  set (p := Z.min lenTotal (lengthMask b + 1 - front b)) in *.
  rewrite Hloop1.
  destruct (Z.eq_dec (lenTotal - p) 0) as [Hz|Hr].
  { exists b1, data1. rewrite Hz, popFront_loop_done.
    replace lenTotal with p by lia. split; [exact Hrun1|reflexivity]. }
  assert (p = lengthMask b + 1 - front b) as Hp by (unfold p in *; lia).
  assert (front b1 = 0) as Hf1.
  { rewrite Hfront1, Hp.
    replace (front b + (lengthMask b + 1 - front b)) with (lengthMask b + 1) by lia.
    apply Z.mod_same. lia. }
  destruct (popFront_loop_step N fuel b1 data1 (off + p) (lenTotal - p))
    as (b2 & data2 & Hrun2 & Hloop2 & _); try assumption; try lia.
  rewrite Hf1, Hk1 in *.
  replace (Z.min (lenTotal - p) (lengthMask b + 1 - 0)) with (lenTotal - p) in * by lia.
  rewrite Hloop2, Z.sub_diag, popFront_loop_done.
  exists b2, data2. split; [|reflexivity].
  replace (Z.to_nat lenTotal) with (Z.to_nat p + Z.to_nat (lenTotal - p))%nat by lia.
  rewrite pop_each_app, Hrun1. cbv [bind].
  replace (Z.to_nat off + Z.to_nat p)%nat with (Z.to_nat (off + p)) by lia.
  exact Hrun2.
Qed.

(** ** The bulk entry points *)

Lemma pushBack_spec (N : Z) (fuel : nat) (b : CircularBufferObject_t)
      (data : list byte) (maxlen : Z) :
  wf N b -> 0 <= maxlen < 2 ^ 16 ->
  maxlen <= Z.of_nat (Datatypes.length data) -> (2 <= fuel)%nat ->
  let n := Z.min maxlen (lengthMask b - occupancy b) in
  exists b',
    CircularBuffer_pushBack fuel b data maxlen = Ok (n, b') /\
    push_each (Z.to_nat n) b data 0 = Ok (true, b').
Proof.
  intros Hwf Hmax Hdata Hfuel n.
  pose proof (occupancy_range N b Hwf) as Hocc.
  destruct (wf_ranges N b Hwf) as (Hc & Hb & Hf).
  destruct (wf_memory N b Hwf) as (m & Hm & _).
  destruct (pushBack_loop_spec N fuel b data 0 n) as (b' & Hrun & Hloop);
    try assumption; try (unfold n; lia).
  exists b'. split; [|exact Hrun].
  unfold CircularBuffer_pushBack.
  rewrite (assert_memory b m Hm), (getUnreadSize_wf N b Hwf). cbv [bind].
  rewrite (u16_small (lengthMask b - occupancy b)) by lia.
  assert ((if maxlen <? lengthMask b - occupancy b
           then maxlen else lengthMask b - occupancy b) = n) as ->.
  { unfold n. destruct (Z.ltb_spec maxlen (lengthMask b - occupancy b)); lia. }
  rewrite Hloop. reflexivity.
Qed.

Lemma popFront_spec (N : Z) (fuel : nat) (b : CircularBufferObject_t)
      (data : list byte) (maxlen : Z) :
  wf N b -> 0 <= maxlen < 2 ^ 16 ->
  maxlen <= Z.of_nat (Datatypes.length data) -> (2 <= fuel)%nat ->
  let n := Z.min maxlen (occupancy b) in
  exists b' data',
    CircularBuffer_popFront fuel b data maxlen = Ok (n, b', data') /\
    pop_each (Z.to_nat n) b data 0 = Ok (true, b', data').
Proof.
  intros Hwf Hmax Hdata Hfuel n.
  pose proof (occupancy_range N b Hwf) as Hocc.
  destruct (wf_memory N b Hwf) as (m & Hm & _).
  destruct (popFront_loop_spec N fuel b data 0 n) as (b' & data' & Hrun & Hloop);
    try assumption; try (unfold n; lia).
  exists b', data'. split; [|exact Hrun].
  unfold CircularBuffer_popFront.
  rewrite (assert_memory b m Hm), (getUnreadSize_wf N b Hwf). cbv [bind].
  assert ((if maxlen <? occupancy b then maxlen else occupancy b) = n) as ->.
  { unfold n. destruct (Z.ltb_spec maxlen (occupancy b)); lia. }
  rewrite Hloop. reflexivity.
Qed.

(** ** Fault flag *)

Lemma set_faultFlag_wf (N v : Z) (b : CircularBufferObject_t) :
  wf N b -> v = 0 \/ v = 1 -> wf N (set_faultFlag v b).
Proof. intros [] Hv. split; simpl; assumption. Qed.

Lemma set_front_wf (N : Z) (b : CircularBufferObject_t) :
  wf N b -> wf N (set_front (back b) b).
Proof. intros []. split; simpl; assumption. Qed.

Lemma checkAndClearFault_spec (b : CircularBufferObject_t) (clearBuffer : bool) :
  accepted b ->
  CircularBuffer_checkAndClearFault b clearBuffer
  = Ok (negb (faultFlag b =? 0),
        set_faultFlag 0 (if clearBuffer then set_front (back b) b else b)).
Proof.
  intros Hacc. unfold CircularBuffer_checkAndClearFault.
  rewrite (assert_accepted b Hacc). cbv [bind].
  replace (faultFlag (if clearBuffer then set_front (back b) b else b))
    with (faultFlag b) by (destruct clearBuffer; reflexivity).
  destruct (Z.eqb_spec (faultFlag b) 0) as [Hz|Hnz]; simpl; [|reflexivity].
  do 2 f_equal. destruct clearBuffer, b; simpl in *; subst; reflexivity.
Qed.

(** ** Occupancy under single pushes and pops *)

Lemma run_singles_occupancy (N : Z) (calls : list single_call) :
  forall (b : CircularBufferObject_t) (pushes pops : Z),
    wf N b -> occupancy b = pushes - pops ->
    exists b' pushes' pops',
      run_singles b calls pushes pops = Ok (b', pushes', pops') /\
      wf N b' /\ occupancy b' = pushes' - pops'.
Proof.
  induction calls as [|[x|] calls IH]; intros b pushes pops Hwf Hocc.
  - exists b, pushes, pops. split; [reflexivity|]. split; assumption.
  - pose proof (occupancy_range N b Hwf) as Hrange.
    destruct (wf_memory N b Hwf) as (m & Hm & _).
    simpl run_singles.
    destruct (Z.eq_dec (occupancy b) (lengthMask b)) as [Hfull|Hroom].
    + rewrite (pushBackByte_rejects N b x Hwf Hfull). cbv [bind].
      apply IH; [apply set_faultFlag_wf; auto|exact Hocc].
    + rewrite (pushBackByte_accepts N b m x Hwf Hm) by lia. cbv [bind].
      apply IH; [apply pushed_wf; assumption|].
      rewrite (pushed_occupancy N) by (assumption || lia). lia.
  - pose proof (occupancy_range N b Hwf) as Hrange.
    destruct (wf_memory N b Hwf) as (m & Hm & _).
    simpl run_singles.
    destruct (Z.eq_dec (occupancy b) 0) as [Hempty|Hsome].
    + rewrite (popFrontByte_empty b x00 (memory_accepted b m Hm))
        by (apply (occupancy_zero N); assumption).
      cbv [bind]. apply IH; assumption.
    + destruct (popFrontByte_takes N b m x00 Hwf Hm) as (y & _ & ->); [lia|].
      cbv [bind]. apply IH; [apply popped_wf; assumption|].
      rewrite (popped_occupancy N) by (assumption || lia). lia.
Qed.

(** C1: for every exponent 1 <= N <= 16 and every sequence of
    single-element pushes and pops run on a freshly initialised buffer,
    the unread-size query returns the number of successful pushes minus
    the number of successful pops, and that number is at most
    2^N - 1. *)
Theorem unread_size_counts_singles (N : Z) (m : list byte)
        (calls : list single_call) :
  1 <= N <= 16 -> 2 ^ N <= Z.of_nat (Datatypes.length m) ->
  exists b0 b pushes pops,
    CircularBuffer_init (Some m) N = Ok b0 /\
    run_singles b0 calls 0 0 = Ok (b, pushes, pops) /\
    CircularBuffer_getUnreadSize b = Ok (pushes - pops) /\
    0 <= pushes - pops <= 2 ^ N - 1.
Proof.
  intros HN Hm.
  assert (wf N (fresh N (Some m))) as Hwf.
  { apply fresh_wf; [lia|]. destruct (Z.eqb_spec N 0); lia. }
  destruct (run_singles_occupancy N calls (fresh N (Some m)) 0 0 Hwf)
    as (b & pushes & pops & Hrun & Hwf' & Hocc).
  { rewrite fresh_occupancy by lia. reflexivity. }
  exists (fresh N (Some m)), b, pushes, pops.
  split; [apply init_fresh; lia|]. split; [exact Hrun|].
  rewrite (getUnreadSize_wf N b Hwf'), Hocc. split; [reflexivity|].
  pose proof (occupancy_range N b Hwf') as Hrange.
  rewrite (wf_mask N b Hwf') in Hrange. lia.
Qed.

(** ** The single-element push at the boundary *)

Lemma contents_empty (N : Z) (b : CircularBufferObject_t) :
  wf N b -> back b = front b -> contents b = [].
Proof.
  intros Hwf Heq. apply (occupancy_zero N b Hwf) in Heq.
  unfold contents. rewrite Heq. destruct (memory b); reflexivity.
Qed.

(** C2: on an initialised buffer of capacity 2^N, a single push below
    occupancy 2^N - 1 stores the byte at index [back], advances [back]
    to [(back + 1) & lengthMask], leaves the fault flag and [front]
    alone and returns true; at occupancy 2^N - 1 it sets the fault flag
    and returns false with the store and both cursors untouched.  From
    an empty buffer 2^N - 1 pushes all succeed, the next one fails and
    sets the flag, and the unread size is then 2^N - 1. *)
Theorem pushBackByte_accepts_until_full (N : Z) (b : CircularBufferObject_t)
        (x : byte) :
  wf N b ->
  exists unread m,
    CircularBuffer_getUnreadSize b = Ok unread /\
    memory b = Some m /\
    0 <= unread <= 2 ^ N - 1 /\
    (unread < 2 ^ N - 1 ->
     CircularBuffer_pushBackByte b x
     = Ok (true, set_back (Z.land (back b + 1) (lengthMask b))
                          (set_memory (<[Z.to_nat (back b) := x]> m) b)) /\
     (Z.to_nat (back b) < Datatypes.length m)%nat) /\
    (unread = 2 ^ N - 1 ->
     CircularBuffer_pushBackByte b x = Ok (false, set_faultFlag 1 b)) /\
    (back b = front b ->
     forall data : list byte,
       Z.of_nat (Datatypes.length data) = 2 ^ N - 1 ->
       exists b1,
         push_each (Datatypes.length data) b data 0 = Ok (true, b1) /\
         CircularBuffer_pushBackByte b1 x = Ok (false, set_faultFlag 1 b1) /\
         CircularBuffer_getUnreadSize (set_faultFlag 1 b1) = Ok (2 ^ N - 1)).
Proof.
  intros Hwf. pose proof (occupancy_range N b Hwf) as Hrange.
  destruct (wf_ranges N b Hwf) as (Hc & Hb & Hf).
  destruct (wf_memory N b Hwf) as (m & Hm & _).
  pose proof (wf_mask N b Hwf) as Hmask. pose proof (wf_exp N b Hwf) as HN.
  exists (occupancy b), m.
  split; [apply (getUnreadSize_wf N); exact Hwf|].
  split; [exact Hm|]. split; [lia|]. split; [|split].
  - intros Hlt. rewrite (pushBackByte_accepts N b m x Hwf Hm) by lia.
    split.
    + unfold pushed. do 3 f_equal. rewrite Hmask, land_mask by lia.
      f_equal. lia.
    + destruct (store_size N b m Hwf Hm); lia.
  - intros Hfull. apply (pushBackByte_rejects N); [exact Hwf|lia].
  - intros Hempty data Hlen.
    apply (occupancy_zero N b Hwf) in Hempty.
    destruct (push_each_accepts N (Datatypes.length data) b data 0 Hwf)
      as (b1 & Hrun & Hwf1 & Ho1 & _ & _ & _ & Hk1 & _); try lia.
    exists b1. split; [exact Hrun|].
    split; [apply (pushBackByte_rejects N); [exact Hwf1|lia]|].
    rewrite (getUnreadSize_wf N) by (apply set_faultFlag_wf; auto).
    f_equal. change (occupancy (set_faultFlag 1 b1)) with (occupancy b1). lia.
Qed.

(** ** First in, first out *)

(** C3: for every k <= capacity - 1 and every k bytes, pushing them one
    at a time into an empty initialised buffer and then popping k times
    gives back the same bytes in the same order, and every push and
    every pop succeeds. *)
Theorem fifo_round_trip (N : Z) (b : CircularBufferObject_t)
        (data out : list byte) :
  wf N b -> back b = front b ->
  Z.of_nat (Datatypes.length data) <= 2 ^ N - 1 ->
  Datatypes.length out = Datatypes.length data ->
  exists b1 b2,
    push_each (Datatypes.length data) b data 0 = Ok (true, b1) /\
    pop_each (Datatypes.length data) b1 out 0 = Ok (true, b2, data) /\
    back b2 = front b2.
Proof.
  intros Hwf Hempty Hk Hout.
  pose proof (wf_mask N b Hwf) as Hmask.
  pose proof (contents_empty N b Hwf Hempty) as Hnil.
  apply (occupancy_zero N b Hwf) in Hempty.
  destruct (push_each_accepts N (Datatypes.length data) b data 0 Hwf)
    as (b1 & Hpush & Hwf1 & Ho1 & Hc1 & _); try lia.
  destruct (pop_each_takes N (Datatypes.length data) b1 out 0 Hwf1)
    as (b2 & out' & Hpop & Hwf2 & Ho2 & Hout' & _); try lia.
  exists b1, b2. split; [exact Hpush|]. split.
  - rewrite Hpop. do 2 f_equal. rewrite Hout', Hc1, Hnil. simpl.
    rewrite !(take_ge data) by lia.
    rewrite drop_ge by lia. apply app_nil_r.
  - apply (occupancy_zero N b2 Hwf2). lia.
Qed.

(** ** Bulk transfers *)

(** C4: a bulk push of requested length L copies exactly min(L, F)
    bytes, F = capacity - 1 - unread size, and returns that count
    without touching the fault flag, also when the copy is cut short;
    a bulk pop copies and returns exactly min(L, unread size), again
    without touching the fault flag. *)
Theorem bulk_transfers_truncate_silently (N : Z) (fuel : nat)
        (b : CircularBufferObject_t) (data : list byte) (maxlen : Z) :
  wf N b -> 0 <= maxlen < 2 ^ 16 ->
  maxlen <= Z.of_nat (Datatypes.length data) -> (2 <= fuel)%nat ->
  exists unread,
    CircularBuffer_getUnreadSize b = Ok unread /\
    (let n := Z.min maxlen (2 ^ N - 1 - unread) in
     exists b',
       CircularBuffer_pushBack fuel b data maxlen = Ok (n, b') /\
       faultFlag b' = faultFlag b /\
       contents b' = contents b ++ take (Z.to_nat n) data /\
       CircularBuffer_getUnreadSize b' = Ok (unread + n)) /\
    (let n := Z.min maxlen unread in
     exists b' data',
       CircularBuffer_popFront fuel b data maxlen = Ok (n, b', data') /\
       faultFlag b' = faultFlag b /\
       data' = take (Z.to_nat n) (contents b) ++ drop (Z.to_nat n) data /\
       contents b' = drop (Z.to_nat n) (contents b) /\
       CircularBuffer_getUnreadSize b' = Ok (unread - n)).
Proof.
  intros Hwf Hmax Hdata Hfuel.
  pose proof (occupancy_range N b Hwf) as Hrange.
  pose proof (wf_mask N b Hwf) as Hmask.
  exists (occupancy b). split; [apply (getUnreadSize_wf N); exact Hwf|].
  replace (2 ^ N - 1) with (lengthMask b) by lia. split.
  - intros n.
    destruct (pushBack_spec N fuel b data maxlen Hwf Hmax Hdata Hfuel)
      as (b' & Hcall & Hrun). fold n in Hcall, Hrun.
    destruct (push_each_accepts N (Z.to_nat n) b data 0 Hwf)
      as (b'' & Hrun' & Hwf' & Ho & Hc & _ & Hfl & _); try (unfold n; lia).
    rewrite Hrun in Hrun'. injection Hrun' as <-.
    exists b'. split; [exact Hcall|]. split; [exact Hfl|]. split; [exact Hc|].
    rewrite (getUnreadSize_wf N b' Hwf'). f_equal. unfold n in *. lia.
  - intros n.
    destruct (popFront_spec N fuel b data maxlen Hwf Hmax Hdata Hfuel)
      as (b' & data' & Hcall & Hrun). fold n in Hcall, Hrun.
    destruct (pop_each_takes N (Z.to_nat n) b data 0 Hwf)
      as (b'' & data'' & Hrun' & Hwf' & Ho & Hd & Hc & _ & Hfl & _);
      try (unfold n; lia).
    rewrite Hrun in Hrun'. injection Hrun' as <- <-.
    exists b', data'.
    split; [exact Hcall|]. split; [exact Hfl|]. split; [exact Hd|].
    split; [exact Hc|].
    rewrite (getUnreadSize_wf N b' Hwf'). f_equal. unfold n in *. lia.
Qed.

(** C8: from every initialised state, wherever the cursors stand, and
    for every length, the bulk push and the bulk pop -- each at most two
    contiguous copies, the first up to the physical end of the store --
    do exactly what the accepted number of single pushes or pops do:
    same count, same buffer (cursors, stored bytes, flag), same bytes
    delivered. *)
Theorem bulk_transfers_equal_singles (N : Z) (b : CircularBufferObject_t)
        (data : list byte) (maxlen : Z) :
  wf N b -> 0 <= maxlen < 2 ^ 16 ->
  maxlen <= Z.of_nat (Datatypes.length data) ->
  (exists n b',
      CircularBuffer_pushBack 2 b data maxlen = Ok (n, b') /\
      n = Z.min maxlen (lengthMask b - occupancy b) /\
      push_each (Z.to_nat n) b data 0 = Ok (true, b')) /\
  (exists n b' data',
      CircularBuffer_popFront 2 b data maxlen = Ok (n, b', data') /\
      n = Z.min maxlen (occupancy b) /\
      pop_each (Z.to_nat n) b data 0 = Ok (true, b', data')).
Proof.
  intros Hwf Hmax Hdata. split.
  - destruct (pushBack_spec N 2 b data maxlen Hwf Hmax Hdata) as (b' & Hcall & Hrun);
      [lia|].
    eexists _, b'. split; [exact Hcall|]. split; [reflexivity|exact Hrun].
  - destruct (popFront_spec N 2 b data maxlen Hwf Hmax Hdata)
      as (b' & data' & Hcall & Hrun); [lia|].
    eexists _, b', data'. split; [exact Hcall|]. split; [reflexivity|exact Hrun].
Qed.

(** ** The fault flag over all calls *)

(** C6: from every initialised state the fault flag goes from clear to
    set exactly when a single-element push is refused for lack of space;
    no pop, bulk push, bulk pop or unread-size query sets it, and once
    set it stays set under every call except
    [CircularBuffer_checkAndClearFault], which clears it. *)
Theorem fault_flag_discipline (N : Z) (fuel : nat)
        (b : CircularBufferObject_t) (c : call) :
  wf N b -> valid_call c -> (2 <= fuel)%nat ->
  exists r b',
    exec fuel b c = Ok (r, b') /\
    wf N b' /\
    (forall x, c = PushBackByte x ->
               (r = RBool false <-> occupancy b = lengthMask b)) /\
    (faultFlag b = 0 ->
     (faultFlag b' <> 0 <-> exists x, c = PushBackByte x /\ r = RBool false)) /\
    (faultFlag b <> 0 ->
     (faultFlag b' = 0 <-> exists clearBuffer, c = CheckAndClearFault clearBuffer)).
Proof.
  intros Hwf Hvalid Hfuel.
  pose proof (occupancy_range N b Hwf) as Hrange.
  destruct (wf_memory N b Hwf) as (m & Hm & _).
  destruct c as [|clearBuffer|x|d|data maxlen|data maxlen]; simpl exec.
  - rewrite (getUnreadSize_wf N b Hwf). cbv [bind].
    exists (RCount (occupancy b)), b. split; [reflexivity|]. split; [exact Hwf|].
    split; [discriminate|]. split; intros Hfl; split;
      try (intros (? & ? & _) || intros (? & ?)); try discriminate; lia.
  - rewrite (checkAndClearFault_spec b clearBuffer (memory_accepted b m Hm)).
    cbv [bind].
    eexists _, _. split; [reflexivity|]. split.
    { apply set_faultFlag_wf; [|auto].
      destruct clearBuffer; [apply set_front_wf|]; exact Hwf. }
    split; [discriminate|]. split; intros Hfl; split; simpl;
      try (intros (? & ? & _)); try discriminate; try lia; eauto.
  - destruct (Z.eq_dec (occupancy b) (lengthMask b)) as [Hfull|Hroom].
    + rewrite (pushBackByte_rejects N b x Hwf Hfull). cbv [bind].
      eexists _, _. split; [reflexivity|].
      split; [apply set_faultFlag_wf; auto|].
      split; [intros; tauto|]. split; intros Hfl; split; simpl;
        try (intros (? & ?)); try discriminate; try lia; eauto.
    + rewrite (pushBackByte_accepts N b m x Hwf Hm) by lia. cbv [bind].
      eexists _, _. split; [reflexivity|].
      split; [apply pushed_wf; assumption|].
      split; [intros; split; [discriminate|lia]|].
      split; intros Hfl; split; simpl;
        try (intros (? & ? & ?) || intros (? & ?)); try discriminate; lia.
  - destruct (Z.eq_dec (occupancy b) 0) as [Hempty|Hsome].
    + rewrite (popFrontByte_empty b d (memory_accepted b m Hm))
        by (apply (occupancy_zero N); assumption).
      cbv [bind]. eexists _, b. split; [reflexivity|]. split; [exact Hwf|].
      split; [discriminate|]. split; intros Hfl; split;
        try (intros (? & ? & _) || intros (? & ?)); try discriminate; lia.
    + destruct (popFrontByte_takes N b m d Hwf Hm) as (y & _ & ->); [lia|].
      cbv [bind]. eexists _, _. split; [reflexivity|].
      split; [apply popped_wf; assumption|].
      split; [discriminate|]. split; intros Hfl; split; simpl;
        try (intros (? & ? & _) || intros (? & ?)); try discriminate; lia.
  - destruct Hvalid as (Hmax & Hdata).
    destruct (pushBack_spec N fuel b data maxlen Hwf Hmax Hdata Hfuel)
      as (b' & -> & Hrun).
    destruct (push_each_accepts N
                (Z.to_nat (Z.min maxlen (lengthMask b - occupancy b))) b data 0 Hwf)
      as (b'' & Hrun' & Hwf' & _ & _ & _ & Hfl' & _); try lia.
    rewrite Hrun in Hrun'. injection Hrun' as <-.
    cbv [bind]. eexists _, b'. split; [reflexivity|]. split; [exact Hwf'|].
    split; [discriminate|]. rewrite Hfl'. split; intros Hfl; split;
      try (intros (? & ? & _) || intros (? & ?)); try discriminate; lia.
  - destruct Hvalid as (Hmax & Hdata).
    destruct (popFront_spec N fuel b data maxlen Hwf Hmax Hdata Hfuel)
      as (b' & data' & -> & Hrun).
    destruct (pop_each_takes N (Z.to_nat (Z.min maxlen (occupancy b))) b data 0 Hwf)
      as (b'' & data'' & Hrun' & Hwf' & _ & _ & _ & _ & Hfl' & _); try lia.
    rewrite Hrun in Hrun'. injection Hrun' as <- <-.
    cbv [bind]. eexists _, b'. split; [reflexivity|]. split; [exact Hwf'|].
    split; [discriminate|]. rewrite Hfl'. split; intros Hfl; split;
      try (intros (? & ? & _) || intros (? & ?)); try discriminate; lia.
Qed.

(** C7: on every state its assertion lets through -- a buffer with a
    store, or any buffer once assertions are compiled out --
    [CircularBuffer_checkAndClearFault] returns the fault flag as it stood
    at the call and leaves it clear whatever it returned; with the clear
    argument true it also sets [front] to [back], so that the unread size
    is 0, and with false it moves no cursor.  A second call right after
    it, with the clear argument false, returns false: two calls in a row
    return true at most once, and both return false when no fault was
    pending. *)
Theorem checkAndClearFault_reports_then_clears
        (b : CircularBufferObject_t) (clearBuffer : bool) :
  accepted b -> 0 <= back b < 2 ^ 16 ->
  exists b',
    CircularBuffer_checkAndClearFault b clearBuffer
    = Ok (negb (faultFlag b =? 0), b') /\
    faultFlag b' = 0 /\
    back b' = back b /\
    front b' = (if clearBuffer then back b else front b) /\
    lengthMask b' = lengthMask b /\ length b' = length b /\
    memory b' = memory b /\
    (clearBuffer = true -> CircularBuffer_getUnreadSize b' = Ok 0) /\
    CircularBuffer_checkAndClearFault b' false = Ok (false, b').
Proof.
  intros Hacc Hback.
  rewrite (checkAndClearFault_spec b clearBuffer Hacc).
  eexists. split; [reflexivity|].
  set (b' := set_faultFlag 0 (if clearBuffer then set_front (back b) b else b)).
  assert (accepted b') as Hacc' by (destruct clearBuffer; exact Hacc).
  repeat split; try (destruct clearBuffer; reflexivity).
  - intros ->. unfold CircularBuffer_getUnreadSize.
    rewrite (assert_accepted b' Hacc'). cbv [bind].
    rewrite snapshot_back, snapshot_front by (simpl; lia).
    simpl. rewrite Z.sub_diag, Z.land_0_l. reflexivity.
  - rewrite (checkAndClearFault_spec b' false Hacc').
    destruct clearBuffer; reflexivity.
Qed.

(** C10: on every state the assertion lets through, when [front] equals
    [back], [CircularBuffer_popFrontByte] returns false, leaves every
    field of the buffer as it was and does not write through the
    destination pointer: the destination byte keeps its value. *)
Theorem popFrontByte_on_empty_changes_nothing
        (b : CircularBufferObject_t) (data : byte) :
  accepted b -> back b = front b ->
  CircularBuffer_popFrontByte b data = Ok (false, b, data).
Proof. apply popFrontByte_empty. Qed.

(** ** Every call against the reference queue *)

Lemma contents_size (N : Z) (b : CircularBufferObject_t) :
  wf N b -> Z.of_nat (Datatypes.length (contents b)) = occupancy b.
Proof.
  intros Hwf. pose proof (occupancy_range N b Hwf).
  destruct (wf_memory N b Hwf) as (m & Hm & _).
  rewrite (contents_length b m Hm). lia.
Qed.

Lemma push_each_store_len (N : Z) (n : nat) :
  forall (b b' : CircularBufferObject_t) (data : list byte) (off : nat),
    wf N b -> occupancy b + Z.of_nat n <= lengthMask b ->
    (off + n <= Datatypes.length data)%nat ->
    push_each n b data off = Ok (true, b') ->
    store_len b' = store_len b.
Proof.
  induction n as [|n IH]; intros b b' data off Hwf Hroom Hdata Hrun.
  - simpl in Hrun. injection Hrun as <-. reflexivity.
  - destruct (wf_memory N b Hwf) as (m & Hm & _).
    destruct (lookup_lt_is_Some_2 data off) as [x Hx]; [lia|].
    assert (occupancy b < lengthMask b) as Hlt by lia.
    simpl push_each in Hrun. rewrite (load_nat data off x Hx) in Hrun.
    cbv [bind] in Hrun.
    rewrite (pushBackByte_accepts N b m x Hwf Hm Hlt) in Hrun.
    apply IH in Hrun.
    + rewrite Hrun. unfold store_len. simpl. rewrite Hm. apply length_insert.
    + apply pushed_wf; assumption.
    + rewrite (pushed_occupancy N) by assumption. simpl. lia.
    + lia.
Qed.

(** One call, on the buffer and on the queue it stands for. *)
Lemma observe_step (N : Z) (fuel : nat) (b : CircularBufferObject_t) (c : call) :
  wf N b -> valid_call c -> (2 <= fuel)%nat ->
  exists o b',
    observe fuel b c = Ok (o, b') /\
    wf N b' /\
    queue_step (2 ^ N - 1) (queue_of b) c = (o, queue_of b') /\
    lengthMask b' = lengthMask b /\ length b' = length b /\
    store_len b' = store_len b /\
    (producer_call c = true -> front b' = front b) /\
    (consumer_call c = true -> back b' = back b /\ memory b' = memory b) /\
    (c = GetUnreadSize -> b' = b).
Proof.
  intros Hwf Hvalid Hfuel.
  pose proof (occupancy_range N b Hwf) as Hrange.
  pose proof (contents_size N b Hwf) as Hsize.
  pose proof (wf_mask N b Hwf) as Hmask.
  destruct (wf_memory N b Hwf) as (m & Hm & _).
  destruct c as [|clearBuffer|x|d|data maxlen|data maxlen];
    simpl observe; unfold queue_step, queue_of; cbn [unread fault]; rewrite ?Hsize.
  - rewrite (getUnreadSize_wf N b Hwf). cbv [bind].
    exists (OCount (occupancy b)), b.
    repeat (split; [first [reflexivity | exact Hwf | discriminate]|]).
    reflexivity.
  - rewrite (checkAndClearFault_spec b clearBuffer (memory_accepted b m Hm)).
    cbv [bind]. eexists _, _. split; [reflexivity|]. split.
    { apply set_faultFlag_wf; [|auto].
      destruct clearBuffer; [apply set_front_wf|]; exact Hwf. }
    split.
    { simpl. f_equal. f_equal.
      destruct clearBuffer; [|reflexivity].
      symmetry. apply (contents_empty N); [|reflexivity].
      apply set_faultFlag_wf; [apply set_front_wf; exact Hwf|auto]. }
    repeat split; try (destruct clearBuffer; reflexivity); discriminate.
  - destruct (Z.eq_dec (occupancy b) (lengthMask b)) as [Hfull|Hroom].
    + rewrite (pushBackByte_rejects N b x Hwf Hfull). cbv [bind].
      replace (occupancy b <? 2 ^ N - 1) with false
        by (symmetry; apply Z.ltb_ge; lia).
      eexists _, _. split; [reflexivity|].
      split; [apply set_faultFlag_wf; auto|].
      repeat split; discriminate.
    + rewrite (pushBackByte_accepts N b m x Hwf Hm) by lia. cbv [bind].
      replace (occupancy b <? 2 ^ N - 1) with true
        by (symmetry; apply Z.ltb_lt; lia).
      eexists _, _. split; [reflexivity|].
      split; [apply pushed_wf; assumption|]. split.
      { rewrite (pushed_contents N) by (assumption || lia).
        reflexivity. }
      repeat split; try discriminate.
      unfold store_len. simpl. rewrite Hm. apply length_insert.
  - destruct (Z.eq_dec (occupancy b) 0) as [Hempty|Hsome].
    + rewrite (popFrontByte_empty b d (memory_accepted b m Hm))
        by (apply (occupancy_zero N); assumption).
      cbv [bind].
      rewrite (contents_empty N b Hwf) by (apply (occupancy_zero N); assumption).
      exists (OByte false d), b. split; [reflexivity|]. split; [exact Hwf|].
      split.
      { rewrite (contents_empty N b Hwf)
          by (apply (occupancy_zero N); assumption). reflexivity. }
      repeat split; discriminate.
    + destruct (popFrontByte_takes N b m d Hwf Hm) as (y & Hy & ->); [lia|].
      cbv [bind].
      rewrite (popped_contents N b m y Hwf Hm) by (assumption || lia).
      eexists _, _. split; [reflexivity|].
      split; [apply popped_wf; assumption|].
      repeat split; discriminate.
  - destruct Hvalid as (Hmax & Hdata).
    destruct (pushBack_spec N fuel b data maxlen Hwf Hmax Hdata Hfuel)
      as (b' & -> & Hrun).
    set (n := Z.min maxlen (lengthMask b - occupancy b)) in *.
    destruct (push_each_accepts N (Z.to_nat n) b data 0 Hwf)
      as (b'' & Hrun' & Hwf' & _ & Hc & Hfr & Hfl & Hk & Hl); try (unfold n; lia).
    rewrite Hrun in Hrun'. injection Hrun' as <-.
    pose proof (push_each_store_len N (Z.to_nat n) b b' data 0 Hwf) as Hst.
    cbv [bind]. replace (2 ^ N - 1) with (lengthMask b) by lia. fold n.
    eexists _, b'. split; [reflexivity|]. split; [exact Hwf'|].
    split; [rewrite Hc, Hfl; reflexivity|].
    split; [exact Hk|]. split; [exact Hl|].
    split; [apply Hst; (exact Hrun || unfold n; lia)|].
    repeat split; try discriminate; intros; assumption.
  - destruct Hvalid as (Hmax & Hdata).
    destruct (popFront_spec N fuel b data maxlen Hwf Hmax Hdata Hfuel)
      as (b' & data' & -> & Hrun).
    set (n := Z.min maxlen (occupancy b)) in *.
    destruct (pop_each_takes N (Z.to_nat n) b data 0 Hwf)
      as (b'' & data'' & Hrun' & Hwf' & _ & Hd & Hc & Hbk & Hfl & Hk & Hl & Hmem);
      try (unfold n; lia).
    rewrite Hrun in Hrun'. injection Hrun' as <- <-.
    cbv [bind].
    eexists _, b'. split; [reflexivity|]. split; [exact Hwf'|].
    split; [rewrite Hc, Hfl, Hd; reflexivity|].
    split; [exact Hk|]. split; [exact Hl|].
    split; [unfold store_len; rewrite Hmem; reflexivity|].
    repeat split; try discriminate; intros; assumption.
Qed.

Lemma observe_all_steps (N : Z) (fuel : nat) (calls : list call) :
  forall b : CircularBufferObject_t,
    wf N b -> Forall valid_call calls -> (2 <= fuel)%nat ->
    exists outs b',
      observe_all fuel b calls = Ok (outs, b') /\
      wf N b' /\
      queue_run (2 ^ N - 1) (queue_of b) calls = (outs, queue_of b') /\
      Datatypes.length outs = Datatypes.length calls /\
      lengthMask b' = lengthMask b /\ length b' = length b /\
      store_len b' = store_len b.
Proof.
  induction calls as [|c calls IH]; intros b Hwf Hvalid Hfuel.
  - exists [], b. repeat (split; [first [reflexivity | exact Hwf]|]). reflexivity.
  - inversion Hvalid as [|? ? Hc Hcalls]; subst.
    destruct (observe_step N fuel b c Hwf Hc Hfuel)
      as (o & b1 & Hobs & Hwf1 & Hq & Hk & Hl & Hs & _).
    destruct (IH b1 Hwf1 Hcalls Hfuel)
      as (outs & b' & Hall & Hwf' & Hqs & Hn & Hk' & Hl' & Hs').
    exists (o :: outs), b'. simpl observe_all. rewrite Hobs. cbv [bind].
    rewrite Hall. split; [reflexivity|]. split; [exact Hwf'|].
    split; [simpl; rewrite Hq, Hqs; reflexivity|].
    split; [simpl; congruence|].
    split; [congruence|]. split; congruence.
Qed.

(** X1: every sequence of calls made after [CircularBuffer_init] with an
    exponent of at most 16 and a store of the announced size runs to the
    end: no assertion fails, no byte outside the store or the caller's
    regions is touched, and no copy loop needs a third turn.  The mask,
    the length and the size of the store are the same afterwards and both
    cursors are below the capacity. *)
Theorem call_sequences_stay_in_bounds (N : Z) (fuel : nat) (m : list byte)
        (calls : list call) :
  0 <= N <= 16 ->
  (if N =? 0 then 0 else 2 ^ N) <= Z.of_nat (Datatypes.length m) ->
  Forall valid_call calls -> (2 <= fuel)%nat ->
  exists b0 outs b,
    CircularBuffer_init (Some m) N = Ok b0 /\
    observe_all fuel b0 calls = Ok (outs, b) /\
    Datatypes.length outs = Datatypes.length calls /\
    lengthMask b = 2 ^ N - 1 /\
    length b = (if N =? 0 then 0 else 2 ^ N) /\
    store_len b = Datatypes.length m /\
    0 <= back b <= 2 ^ N - 1 /\ 0 <= front b <= 2 ^ N - 1.
Proof.
  intros HN Hm Hvalid Hfuel.
  pose proof (fresh_wf N m HN Hm) as Hwf.
  destruct (observe_all_steps N fuel calls (fresh N (Some m)) Hwf Hvalid Hfuel)
    as (outs & b & Hall & Hwf' & _ & Hn & Hk & Hl & Hs).
  exists (fresh N (Some m)), outs, b.
  split; [apply init_fresh; exact HN|]. split; [exact Hall|].
  split; [exact Hn|]. split; [exact Hk|]. split; [exact Hl|].
  split; [exact Hs|].
  destruct Hwf' as [_ Hmask _ Hb Hf _ _]. rewrite Hmask in Hb, Hf.
  split; assumption.
Qed.

(** X2: under any interleaving of the six calls, the buffer behaves as a
    queue of at most 2^N - 1 bytes with a fault latch: each call returns
    what the queue returns (counts, booleans, popped bytes and what is
    left of the caller's region), a refused single push drops the new
    byte and keeps the old ones, and the unread bytes afterwards are the
    queue's. *)
Theorem buffer_refines_queue (N : Z) (fuel : nat) (b : CircularBufferObject_t)
        (calls : list call) :
  wf N b -> Forall valid_call calls -> (2 <= fuel)%nat ->
  exists outs b',
    observe_all fuel b calls = Ok (outs, b') /\
    queue_run (2 ^ N - 1) (queue_of b) calls = (outs, queue_of b').
Proof.
  intros Hwf Hvalid Hfuel.
  destruct (observe_all_steps N fuel calls b Hwf Hvalid Hfuel)
    as (outs & b' & Hall & _ & Hq & _).
  exists outs, b'. split; assumption.
Qed.


(** ** Edge cases of the interface *)

Lemma getUnreadSize_nonneg (b : CircularBufferObject_t) :
  accepted b -> exists u, CircularBuffer_getUnreadSize b = Ok u /\ 0 <= u.
Proof.
  intros Hacc. unfold CircularBuffer_getUnreadSize.
  rewrite (assert_accepted b Hacc). cbv [bind].
  eexists. split; [reflexivity|].
  unfold u16. apply Z.mod_pos_bound. lia.
Qed.

(** X4: a bulk push or a bulk pop of length 0 is a no-op that returns 0:
    whatever the state of the buffer, as long as the call's assertion
    lets it through, neither the buffer nor the caller's region
    changes. *)
Theorem zero_length_bulk_calls_do_nothing (fuel : nat)
        (b : CircularBufferObject_t) (data : list byte) :
  accepted b ->
  CircularBuffer_pushBack fuel b data 0 = Ok (0, b) /\
  CircularBuffer_popFront fuel b data 0 = Ok (0, b, data).
Proof.
  intros Hacc. destruct (getUnreadSize_nonneg b Hacc) as (u & Hu & Hpos).
  split.
  - unfold CircularBuffer_pushBack.
    rewrite (assert_accepted b Hacc), Hu. cbv [bind].
    assert (0 <= u16 (lengthMask b - u)) as Hl
      by (unfold u16; apply Z.mod_pos_bound; lia).
    assert ((if 0 <? u16 (lengthMask b - u) then 0 else u16 (lengthMask b - u)) = 0)
      as -> by (destruct (Z.ltb_spec 0 (u16 (lengthMask b - u))); lia).
    rewrite pushBack_loop_done. reflexivity.
  - unfold CircularBuffer_popFront.
    rewrite (assert_accepted b Hacc), Hu. cbv [bind].
    assert ((if 0 <? u then 0 else u) = 0)
      as -> by (destruct (Z.ltb_spec 0 u); lia).
    rewrite popFront_loop_done. reflexivity.
Qed.

(** X5: with exponent 0 and a real store the buffer is permanently empty
    and refuses everything: the unread size is 0, a single push returns
    false and latches the fault, a bulk push accepts 0 bytes, both pops
    deliver nothing, and the state stays of that kind. *)
Theorem exponent_zero_buffer_refuses_everything (fuel : nat)
        (b : CircularBufferObject_t) (x d : byte) (data : list byte) (maxlen : Z) :
  wf 0 b -> 0 <= maxlen ->
  CircularBuffer_getUnreadSize b = Ok 0 /\
  CircularBuffer_pushBackByte b x = Ok (false, set_faultFlag 1 b) /\
  wf 0 (set_faultFlag 1 b) /\
  CircularBuffer_popFrontByte b d = Ok (false, b, d) /\
  CircularBuffer_pushBack fuel b data maxlen = Ok (0, b) /\
  CircularBuffer_popFront fuel b data maxlen = Ok (0, b, data).
Proof.
  intros Hwf Hmax.
  pose proof (occupancy_range 0 b Hwf) as Hrange.
  pose proof (wf_mask 0 b Hwf) as Hmask. simpl in Hmask.
  destruct (wf_memory 0 b Hwf) as (m & Hm & _).
  assert (occupancy b = 0) as Hocc by lia.
  assert (CircularBuffer_getUnreadSize b = Ok 0) as Hsize
    by (rewrite (getUnreadSize_wf 0 b Hwf), Hocc; reflexivity).
  assert ((maxlen <? 0) = false) as Hlt by (apply Z.ltb_ge; lia).
  split; [exact Hsize|].
  split; [apply (pushBackByte_rejects 0); [exact Hwf|lia]|].
  split; [apply set_faultFlag_wf; auto|].
  split; [apply popFrontByte_empty;
          [exact (memory_accepted b m Hm)|apply (occupancy_zero 0); assumption]|].
  split.
  - unfold CircularBuffer_pushBack.
    rewrite (assert_memory b m Hm), Hsize. cbv [bind].
    rewrite Hmask. change (u16 (2 ^ 0 - 1 - 0)) with 0. rewrite Hlt.
    rewrite pushBack_loop_done. reflexivity.
  - unfold CircularBuffer_popFront.
    rewrite (assert_memory b m Hm), Hsize. cbv [bind].
    rewrite Hlt, popFront_loop_done. reflexivity.
Qed.

(** X7: bulk round trip.  From an empty initialised buffer, a bulk push of
    at most 2^N - 1 bytes is accepted whole, and a bulk pop that asks for
    at least as many bytes returns exactly that count with the same bytes
    in the same order at the head of the caller's region, the rest of the
    region untouched, and leaves the buffer empty again. *)
Theorem bulk_round_trip (N : Z) (b : CircularBufferObject_t)
        (data out : list byte) (maxlen : Z) :
  wf N b -> back b = front b ->
  Z.of_nat (Datatypes.length data) <= 2 ^ N - 1 ->
  Z.of_nat (Datatypes.length data) <= maxlen < 2 ^ 16 ->
  maxlen <= Z.of_nat (Datatypes.length out) ->
  exists b1 b2,
    CircularBuffer_pushBack 2 b data (Z.of_nat (Datatypes.length data))
    = Ok (Z.of_nat (Datatypes.length data), b1) /\
    CircularBuffer_popFront 2 b1 out maxlen
    = Ok (Z.of_nat (Datatypes.length data), b2,
          data ++ drop (Datatypes.length data) out) /\
    back b2 = front b2.
Proof.
  intros Hwf Hempty Hk Hmax Hout.
  pose proof (wf_mask N b Hwf) as Hmask.
  pose proof (contents_empty N b Hwf Hempty) as Hnil.
  apply (occupancy_zero N b Hwf) in Hempty.
  set (k := Z.of_nat (Datatypes.length data)) in *.
  destruct (pushBack_spec N 2 b data k Hwf) as (b1 & Hpush & Hrun1); try lia.
  replace (Z.min k (lengthMask b - occupancy b)) with k in * by lia.
  destruct (push_each_accepts N (Z.to_nat k) b data 0 Hwf)
    as (b1' & Hrun1' & Hwf1 & Ho1 & Hc1 & _); try lia.
  rewrite Hrun1 in Hrun1'. injection Hrun1' as <-.
  destruct (popFront_spec N 2 b1 out maxlen Hwf1) as (b2 & out' & Hpop & Hrun2);
    try lia.
  replace (Z.min maxlen (occupancy b1)) with k in * by lia.
  destruct (pop_each_takes N (Z.to_nat k) b1 out 0 Hwf1)
    as (b2' & out'' & Hrun2' & Hwf2 & Ho2 & Hout' & _); try lia.
  rewrite Hrun2 in Hrun2'. injection Hrun2' as <- <-.
  exists b1, b2. split; [exact Hpush|]. split.
  - rewrite Hpop. do 2 f_equal. rewrite Hout', Hc1, Hnil. simpl.
    unfold k. rewrite Nat2Z.id. rewrite !(take_ge data) by lia. reflexivity.
  - apply (occupancy_zero N b2 Hwf2). lia.
Qed.

(** ** The driver: transmit side *)

Lemma set_txBufferObject_same (s : CircularUART_t) :
  set_txBufferObject (txBufferObject s) s = s.
Proof. destruct s. reflexivity. Qed.

Lemma set_rxBufferObject_same (s : CircularUART_t) :
  set_rxBufferObject (rxBufferObject s) s = s.
Proof. destruct s. reflexivity. Qed.

Lemma handler_sends_head (N : Z) (s : CircularUART_t) (hw : USART1_inputs) :
  wf N (txBufferObject s) -> txe_only hw -> 0 < occupancy (txBufferObject s) ->
  exists x,
    contents (txBufferObject s) = x :: contents (popped (txBufferObject s)) /\
    USART1_IRQHandler s hw
    = Ok (command (USART_SendData x)
                  (set_txBufferObject (popped (txBufferObject s)) s)).
Proof.
  intros Hwf (Htxe & Hrxne) Hocc.
  destruct (wf_memory N _ Hwf) as (m & Hm & _).
  destruct (popFrontByte_takes N _ m (local_data hw) Hwf Hm Hocc) as (x & Hx & Hpop).
  exists x. split; [apply (popped_contents N _ m x Hwf Hm Hocc Hx)|].
  unfold USART1_IRQHandler. rewrite Htxe, Hpop. cbv [bind].
  rewrite Hrxne. reflexivity.
Qed.

Lemma handler_disables_when_empty (N : Z) (s : CircularUART_t) (hw : USART1_inputs) :
  wf N (txBufferObject s) -> txe_only hw -> occupancy (txBufferObject s) = 0 ->
  USART1_IRQHandler s hw
  = Ok (command (USART_ITConfig USART_IT_TXE DISABLE) s).
Proof.
  intros Hwf (Htxe & Hrxne) Hocc.
  destruct (wf_memory N _ Hwf) as (m & Hm & _).
  unfold USART1_IRQHandler. rewrite Htxe.
  rewrite (popFrontByte_empty _ (local_data hw) (memory_accepted _ m Hm))
    by (apply (occupancy_zero N); assumption).
  cbv [bind]. rewrite set_txBufferObject_same, Hrxne. reflexivity.
Qed.

Lemma contents_nil_occupancy (N : Z) (b : CircularBufferObject_t) :
  wf N b -> (contents b = [] <-> occupancy b = 0).
Proof.
  intros Hwf. pose proof (contents_size N b Hwf) as Hsize.
  split; intros H.
  - rewrite H in Hsize. simpl in Hsize. lia.
  - rewrite H in Hsize. destruct (contents b); [reflexivity|simpl in Hsize; lia].
Qed.

(** TXE interrupts against the queue of unsent bytes. *)
Lemma interrupts_drain (N : Z) (k : nat) :
  forall (s : CircularUART_t) (hw : USART1_inputs),
    wf N (txBufferObject s) -> txe_only hw ->
    exists s',
      interrupts s (repeat hw k) = Ok s' /\
      peripheral s'
      = peripheral s
        ++ (USART_SendData <$> take k (contents (txBufferObject s)))
        ++ repeat (USART_ITConfig USART_IT_TXE DISABLE)
                  (k - Datatypes.length (contents (txBufferObject s))) /\
      contents (txBufferObject s') = drop k (contents (txBufferObject s)) /\
      wf N (txBufferObject s') /\
      rxBufferObject s' = rxBufferObject s.
Proof.
  induction k as [|k IH]; intros s hw Hwf Hhw.
  - exists s. simpl. rewrite app_nil_r.
    split; [reflexivity|]. split; [reflexivity|]. split; [reflexivity|].
    split; [exact Hwf|reflexivity].
  - pose proof (occupancy_range N _ Hwf) as Hrange.
    destruct (Z.eq_dec (occupancy (txBufferObject s)) 0) as [Hempty|Hsome].
    + pose proof (proj2 (contents_nil_occupancy N _ Hwf) Hempty) as Hnil.
      destruct (IH (command (USART_ITConfig USART_IT_TXE DISABLE) s) hw Hwf Hhw)
        as (s' & Hrun & Hper & Hc & Hwf' & Hrx).
      exists s'. simpl interrupts.
      rewrite (handler_disables_when_empty N s hw Hwf Hhw Hempty). cbv [bind].
      split; [exact Hrun|]. simpl in Hper, Hc, Hrx.
      rewrite Hnil in *. simpl in *. rewrite take_nil in Hper. rewrite drop_nil in Hc.
      rewrite Nat.sub_0_r in Hper.
      split; [rewrite Hper, <- app_assoc; reflexivity|].
      split; [exact Hc|]. split; [exact Hwf'|exact Hrx].
    + destruct (handler_sends_head N s hw Hwf Hhw) as (x & Hx & Hirq); [lia|].
      destruct (IH (command (USART_SendData x)
                      (set_txBufferObject (popped (txBufferObject s)) s)) hw)
        as (s' & Hrun & Hper & Hc & Hwf' & Hrx);
        [apply popped_wf; exact Hwf|exact Hhw|].
      exists s'. simpl interrupts. rewrite Hirq. cbv [bind].
      split; [exact Hrun|]. simpl in Hper, Hc, Hrx.
      rewrite Hx. simpl.
      split; [rewrite Hper, <- app_assoc; reflexivity|].
      split; [exact Hc|]. split; [exact Hwf'|exact Hrx].
Qed.

(** X8: TXE interrupts hand the queued bytes to the transmitter one per
    interrupt, oldest first, and never touch the receive buffer.  Once the
    transmit buffer is empty, every further TXE interrupt sends nothing
    and switches the TXE interrupt off. *)
Theorem TXE_interrupts_drain_in_order (N : Z) (k : nat)
        (s : CircularUART_t) (hw : USART1_inputs) :
  wf N (txBufferObject s) -> txe_only hw ->
  exists unsent s',
    CircularUART_GetUnsentCount s = Ok unsent /\
    interrupts s (repeat hw k) = Ok s' /\
    peripheral s'
    = peripheral s
      ++ (USART_SendData <$> take k (contents (txBufferObject s)))
      ++ repeat (USART_ITConfig USART_IT_TXE DISABLE) (k - Z.to_nat unsent) /\
    contents (txBufferObject s') = drop k (contents (txBufferObject s)) /\
    CircularUART_GetUnsentCount s' = Ok (unsent - Z.min (Z.of_nat k) unsent) /\
    rxBufferObject s' = rxBufferObject s.
Proof.
  intros Hwf Hhw.
  pose proof (occupancy_range N _ Hwf) as Hrange.
  pose proof (contents_size N _ Hwf) as Hsize.
  destruct (interrupts_drain N k s hw Hwf Hhw) as (s' & Hrun & Hper & Hc & Hwf' & Hrx).
  exists (occupancy (txBufferObject s)), s'. unfold CircularUART_GetUnsentCount.
  split; [apply (getUnreadSize_wf N); exact Hwf|]. split; [exact Hrun|].
  split; [rewrite Hper; do 3 f_equal; lia|]. split; [exact Hc|].
  split; [|exact Hrx].
  rewrite (getUnreadSize_wf N _ Hwf'). f_equal.
  rewrite <- (contents_size N _ Hwf'), Hc, length_drop. lia.
Qed.

(** X9: [CircularUART_Send] accepts min(maxlen, free) bytes, queues them
    behind the unsent ones and leaves the receive side alone.  It switches
    the TXE interrupt on only if the TC flag reads as set; otherwise it
    tells the peripheral nothing and the bytes wait in the buffer. *)
Theorem Send_queues_and_arms (N : Z) (fuel : nat) (s : CircularUART_t)
        (data : list byte) (maxlen : Z) (TC : bool) :
  wf N (txBufferObject s) -> 0 <= maxlen < 2 ^ 16 ->
  maxlen <= Z.of_nat (Datatypes.length data) -> (2 <= fuel)%nat ->
  exists unsent s',
    CircularUART_GetUnsentCount s = Ok unsent /\
    (let n := Z.min maxlen (2 ^ N - 1 - unsent) in
     CircularUART_Send fuel s data maxlen TC = Ok (n, s') /\
     contents (txBufferObject s')
     = contents (txBufferObject s) ++ take (Z.to_nat n) data /\
     CircularUART_GetUnsentCount s' = Ok (unsent + n)) /\
    wf N (txBufferObject s') /\
    faultFlag (txBufferObject s') = faultFlag (txBufferObject s) /\
    rxBufferObject s' = rxBufferObject s /\
    peripheral s'
    = peripheral s
      ++ (if TC then [USART_ITConfig USART_IT_TXE ENABLE] else []).
Proof.
  intros Hwf Hmax Hdata Hfuel.
  pose proof (occupancy_range N _ Hwf) as Hrange.
  pose proof (wf_mask N _ Hwf) as Hmask.
  destruct (pushBack_spec N fuel _ data maxlen Hwf Hmax Hdata Hfuel)
    as (b' & Hcall & Hrun).
  set (n := Z.min maxlen (lengthMask (txBufferObject s) - occupancy (txBufferObject s)))
    in *.
  destruct (push_each_accepts N (Z.to_nat n) _ data 0 Hwf)
    as (b'' & Hrun' & Hwf' & Ho & Hc & _ & Hfl & _); try (unfold n; lia).
  rewrite Hrun in Hrun'. injection Hrun' as <-.
  exists (occupancy (txBufferObject s)).
  exists (let s1 := set_txBufferObject b' s in
          if TC then command (USART_ITConfig USART_IT_TXE ENABLE) s1 else s1).
  unfold CircularUART_GetUnsentCount.
  split; [apply (getUnreadSize_wf N); exact Hwf|].
  replace (2 ^ N - 1) with (lengthMask (txBufferObject s)) by lia. fold n.
  split; [split; [|split]|].
  - unfold CircularUART_Send. rewrite Hcall. reflexivity.
  - destruct TC; exact Hc.
  - replace (txBufferObject _) with b' by (destruct TC; reflexivity).
    rewrite (getUnreadSize_wf N b' Hwf'). f_equal. unfold n in *. lia.
  - replace (txBufferObject _) with b' by (destruct TC; reflexivity).
    split; [exact Hwf'|]. split; [exact Hfl|].
    destruct TC; simpl; (split; [reflexivity|]);
      [reflexivity|symmetry; apply app_nil_r].
Qed.

(** X10: transmit round trip.  Into an empty transmit buffer,
    [CircularUART_Send] of at most 2^N - 1 bytes accepts them all; that
    many TXE interrupts then pass exactly those bytes, in order, to
    [USART_SendData], and the next TXE interrupt finds the buffer empty
    and switches the interrupt off. *)
Theorem Send_then_interrupts_transmit_all (N : Z) (s : CircularUART_t)
        (data : list byte) (TC : bool) (hw : USART1_inputs) :
  wf N (txBufferObject s) ->
  back (txBufferObject s) = front (txBufferObject s) ->
  Z.of_nat (Datatypes.length data) <= 2 ^ N - 1 ->
  txe_only hw ->
  exists s1 s2,
    CircularUART_Send 2 s data (Z.of_nat (Datatypes.length data)) TC
    = Ok (Z.of_nat (Datatypes.length data), s1) /\
    interrupts s1 (repeat hw (S (Datatypes.length data))) = Ok s2 /\
    peripheral s2
    = peripheral s
      ++ (if TC then [USART_ITConfig USART_IT_TXE ENABLE] else [])
      ++ (USART_SendData <$> data)
      ++ [USART_ITConfig USART_IT_TXE DISABLE] /\
    CircularUART_GetUnsentCount s2 = Ok 0.
Proof.
  intros Hwf Hempty Hk Hhw.
  pose proof (pow2_bounds N (wf_exp N _ Hwf)) as Hp.
  pose proof (contents_empty N _ Hwf Hempty) as Hnil.
  apply (occupancy_zero N _ Hwf) in Hempty.
  set (k := Z.of_nat (Datatypes.length data)) in *.
  pose proof (wf_mask N _ Hwf) as Hmask.
  destruct (pushBack_spec N 2 _ data k Hwf) as (b1 & Hpush & Hrun1); try lia.
  replace (Z.min k (lengthMask (txBufferObject s) - occupancy (txBufferObject s)))
    with k in * by lia.
  destruct (push_each_accepts N (Z.to_nat k) _ data 0 Hwf)
    as (b1' & Hrun1' & Hwf1 & _ & Hc1 & _); try lia.
  rewrite Hrun1 in Hrun1'. injection Hrun1' as <-.
  unfold k in Hc1. rewrite Nat2Z.id, Hnil, drop_0 in Hc1. simpl in Hc1.
  rewrite take_ge in Hc1 by lia.
  set (s1 := let s1 := set_txBufferObject b1 s in
             if TC then command (USART_ITConfig USART_IT_TXE ENABLE) s1 else s1).
  assert (txBufferObject s1 = b1) as Htx1 by (unfold s1; destruct TC; reflexivity).
  assert (peripheral s1
          = peripheral s ++ (if TC then [USART_ITConfig USART_IT_TXE ENABLE] else []))
    as Hper1 by (unfold s1; destruct TC; simpl; [reflexivity|symmetry; apply app_nil_r]).
  rewrite <- Htx1 in Hwf1, Hc1.
  destruct (interrupts_drain N (S (Datatypes.length data)) s1 hw Hwf1 Hhw)
    as (s2 & Hrun & Hper2 & Hc2 & Hwf2 & _).
  exists s1, s2.
  split; [unfold CircularUART_Send; rewrite Hpush; reflexivity|].
  split; [exact Hrun|]. split.
  - rewrite Hper2, Hper1, Hc1.
    rewrite take_ge by lia.
    replace (S (Datatypes.length data) - Datatypes.length data)%nat with 1%nat by lia.
    rewrite <- !app_assoc. reflexivity.
  - unfold CircularUART_GetUnsentCount.
    rewrite (getUnreadSize_wf N _ Hwf2). f_equal.
    apply (contents_nil_occupancy N _ Hwf2).
    rewrite Hc2, Hc1. apply drop_ge. lia.
Qed.

(** ** The driver: receive side *)

Lemma handler_receives (N : Z) (s : CircularUART_t) (hw : USART1_inputs) :
  wf N (rxBufferObject s) -> rxne_only hw ->
  exists rx,
    USART1_IRQHandler s hw = Ok (set_rxBufferObject rx s) /\
    wf N rx /\
    lengthMask rx = lengthMask (rxBufferObject s) /\
    (occupancy (rxBufferObject s) < lengthMask (rxBufferObject s) ->
     contents rx = contents (rxBufferObject s) ++ [uint8 (DR hw)] /\
     occupancy rx = occupancy (rxBufferObject s) + 1 /\
     faultFlag rx = faultFlag (rxBufferObject s)) /\
    (occupancy (rxBufferObject s) = lengthMask (rxBufferObject s) ->
     contents rx = contents (rxBufferObject s) /\
     occupancy rx = occupancy (rxBufferObject s) /\
     faultFlag rx = 1).
Proof.
  intros Hwf (Htxe & Hrxne).
  pose proof (occupancy_range N _ Hwf) as Hrange.
  destruct (wf_memory N _ Hwf) as (m & Hm & _).
  unfold USART1_IRQHandler. rewrite Htxe. cbv [bind]. rewrite Hrxne.
  destruct (Z.eq_dec (occupancy (rxBufferObject s)) (lengthMask (rxBufferObject s)))
    as [Hfull|Hroom].
  - rewrite (pushBackByte_rejects N _ (uint8 (DR hw)) Hwf Hfull).
    eexists. split; [reflexivity|].
    split; [apply set_faultFlag_wf; auto|]. split; [reflexivity|].
    split; [lia|]. intros _. repeat split.
  - rewrite (pushBackByte_accepts N _ m (uint8 (DR hw)) Hwf Hm) by lia.
    eexists. split; [reflexivity|].
    split; [apply pushed_wf; assumption|]. split; [reflexivity|].
    split; [|lia]. intros Hlt.
    split; [apply (pushed_contents N); assumption|].
    split; [apply (pushed_occupancy N); assumption|reflexivity].
Qed.

(** RXNE interrupts against the queue of unread bytes. *)
Lemma interrupts_fill (N : Z) (hws : list USART1_inputs) :
  forall s : CircularUART_t,
    wf N (rxBufferObject s) -> Forall rxne_only hws ->
    let free := lengthMask (rxBufferObject s) - occupancy (rxBufferObject s) in
    exists s',
      interrupts s hws = Ok s' /\
      wf N (rxBufferObject s') /\
      contents (rxBufferObject s')
      = contents (rxBufferObject s)
        ++ take (Z.to_nat free) ((fun hw => uint8 (DR hw)) <$> hws) /\
      faultFlag (rxBufferObject s')
      = (if Z.of_nat (Datatypes.length hws) <=? free
         then faultFlag (rxBufferObject s) else 1) /\
      txBufferObject s' = txBufferObject s /\
      peripheral s' = peripheral s.
Proof.
  induction hws as [|hw hws IH]; intros s Hwf Hall free.
  - exists s. simpl. rewrite take_nil, app_nil_r.
    pose proof (occupancy_range N _ Hwf).
    replace (Z.of_nat 0 <=? free) with true
      by (symmetry; apply Z.leb_le; unfold free; lia).
    split; [reflexivity|]. split; [exact Hwf|]. repeat split.
  - inversion Hall as [|? ? Hhw Hrest]; subst.
    pose proof (occupancy_range N _ Hwf) as Hrange.
    destruct (handler_receives N s hw Hwf Hhw) as (rx & Hirq & Hwf1 & Hk & Hacc & Hrej).
    destruct (IH (set_rxBufferObject rx s) Hwf1 Hrest)
      as (s' & Hrun & Hwf' & Hc & Hfl & Htx & Hper).
    simpl in Hc, Hfl, Htx, Hper.
    exists s'. simpl interrupts. rewrite Hirq. cbv [bind].
    split; [exact Hrun|]. split; [exact Hwf'|].
    split; [|split; [|split; assumption]].
    + destruct (Z.eq_dec (occupancy (rxBufferObject s)) (lengthMask (rxBufferObject s)))
        as [Hfull|Hroom].
      * destruct (Hrej Hfull) as (Hc1 & Ho1 & _).
        rewrite Hc, Hc1, Hk, Ho1.
        replace (Z.to_nat free) with O by (unfold free; lia).
        replace (Z.to_nat (lengthMask (rxBufferObject s)
                           - occupancy (rxBufferObject s))) with O by lia.
        rewrite !take_0. reflexivity.
      * destruct Hacc as (Hc1 & Ho1 & _); [lia|].
        rewrite Hc, Hc1, Hk, Ho1, <- app_assoc. f_equal.
        replace (Z.to_nat free)
          with (S (Z.to_nat (lengthMask (rxBufferObject s)
                             - (occupancy (rxBufferObject s) + 1))))
          by (unfold free; lia).
        reflexivity.
    + rewrite Hfl, Hk.
      destruct (Z.eq_dec (occupancy (rxBufferObject s)) (lengthMask (rxBufferObject s)))
        as [Hfull|Hroom].
      * destruct (Hrej Hfull) as (_ & Ho1 & Hf1). rewrite Ho1, Hf1.
        replace (Z.of_nat (Datatypes.length (hw :: hws)) <=? free) with false
          by (symmetry; apply Z.leb_gt; unfold free; simpl Datatypes.length; lia).
        match goal with |- (if ?c then _ else _) = _ => destruct c end; reflexivity.
      * destruct Hacc as (_ & Ho1 & Hf1); [lia|]. rewrite Ho1, Hf1.
        replace (Z.of_nat (Datatypes.length (hw :: hws)) <=? free)
          with (Z.of_nat (Datatypes.length hws)
                <=? lengthMask (rxBufferObject s) - (occupancy (rxBufferObject s) + 1));
          [reflexivity|].
        unfold free. simpl Datatypes.length.
        destruct (Z.leb_spec (Z.of_nat (Datatypes.length hws))
                    (lengthMask (rxBufferObject s) - (occupancy (rxBufferObject s) + 1)));
          symmetry; [apply Z.leb_le|apply Z.leb_gt]; lia.
Qed.

(** X11: RXNE interrupts queue the received bytes, truncated to 8 bits,
    in arrival order while there is room; once 2^N - 1 bytes are unread
    every further byte is dropped (the older ones are kept) and the fault
    flag of the receive buffer is set.  The flag is left as it was if all
    bytes fitted.  Neither the transmit buffer nor the peripheral is
    touched. *)
Theorem RXNE_interrupts_fill_then_drop (N : Z) (s : CircularUART_t)
        (hws : list USART1_inputs) :
  wf N (rxBufferObject s) -> Forall rxne_only hws ->
  exists unread s',
    CircularUART_GetUnreadCount s = Ok unread /\
    interrupts s hws = Ok s' /\
    (let free := 2 ^ N - 1 - unread in
     contents (rxBufferObject s')
     = contents (rxBufferObject s)
       ++ take (Z.to_nat free) ((fun hw => uint8 (DR hw)) <$> hws) /\
     faultFlag (rxBufferObject s')
     = (if Z.of_nat (Datatypes.length hws) <=? free
        then faultFlag (rxBufferObject s) else 1) /\
     CircularUART_GetUnreadCount s'
     = Ok (unread + Z.min (Z.of_nat (Datatypes.length hws)) free)) /\
    txBufferObject s' = txBufferObject s /\
    peripheral s' = peripheral s.
Proof.
  intros Hwf Hall.
  pose proof (occupancy_range N _ Hwf) as Hrange.
  pose proof (wf_mask N _ Hwf) as Hmask.
  pose proof (contents_size N _ Hwf) as Hsize.
  destruct (interrupts_fill N hws s Hwf Hall) as (s' & Hrun & Hwf' & Hc & Hfl & Htx & Hper).
  exists (occupancy (rxBufferObject s)), s'. unfold CircularUART_GetUnreadCount.
  split; [apply (getUnreadSize_wf N); exact Hwf|]. split; [exact Hrun|].
  replace (2 ^ N - 1) with (lengthMask (rxBufferObject s)) by lia.
  split; [|split; assumption].
  split; [exact Hc|]. split; [exact Hfl|].
  rewrite (getUnreadSize_wf N _ Hwf'). f_equal.
  rewrite <- (contents_size N _ Hwf'), Hc, length_app, length_take, length_fmap.
  lia.
Qed.

(** X12: receive round trip.  Bytes that arrive by RXNE interrupts into
    an empty receive buffer, at most 2^N - 1 of them, are returned by
    [CircularUART_Receive] in arrival order: asked for at least that
    many, it returns their count, writes them at the head of the caller's
    region and leaves the rest of the region and the fault flag as they
    were. *)
Theorem interrupts_then_Receive_return_all (N : Z) (s : CircularUART_t)
        (hws : list USART1_inputs) (out : list byte) (maxlen : Z) :
  wf N (rxBufferObject s) ->
  back (rxBufferObject s) = front (rxBufferObject s) ->
  Forall rxne_only hws ->
  Z.of_nat (Datatypes.length hws) <= 2 ^ N - 1 ->
  Z.of_nat (Datatypes.length hws) <= maxlen < 2 ^ 16 ->
  maxlen <= Z.of_nat (Datatypes.length out) ->
  exists s1 s2,
    interrupts s hws = Ok s1 /\
    CircularUART_Receive 2 s1 out maxlen
    = Ok (Z.of_nat (Datatypes.length hws), s2,
          ((fun hw => uint8 (DR hw)) <$> hws) ++ drop (Datatypes.length hws) out) /\
    faultFlag (rxBufferObject s2) = faultFlag (rxBufferObject s) /\
    CircularUART_GetUnreadCount s2 = Ok 0.
Proof.
  intros Hwf Hempty Hall Hk Hmax Hout.
  pose proof (wf_mask N _ Hwf) as Hmask.
  pose proof (contents_empty N _ Hwf Hempty) as Hnil.
  apply (occupancy_zero N _ Hwf) in Hempty.
  destruct (interrupts_fill N hws s Hwf Hall) as (s1 & Hrun & Hwf1 & Hc1 & Hfl1 & _).
  rewrite Hnil, Hempty in Hc1. simpl in Hc1.
  rewrite take_ge in Hc1 by (rewrite length_fmap; lia).
  rewrite Hempty in Hfl1.
  replace (Z.of_nat (Datatypes.length hws) <=? lengthMask (rxBufferObject s) - 0)
    with true in Hfl1 by (symmetry; apply Z.leb_le; lia).
  pose proof (contents_size N _ Hwf1) as Hsize1.
  rewrite Hc1, length_fmap in Hsize1.
  destruct (popFront_spec N 2 _ out maxlen Hwf1) as (b2 & out' & Hpop & Hrun2);
    try lia.
  replace (Z.min maxlen (occupancy (rxBufferObject s1)))
    with (Z.of_nat (Datatypes.length hws)) in * by lia.
  rewrite Nat2Z.id in Hrun2.
  destruct (pop_each_takes N (Datatypes.length hws) _ out 0 Hwf1)
    as (b2' & out'' & Hrun2' & Hwf2 & Ho2 & Hout' & _ & _ & Hfl2 & _); try lia.
  rewrite Hrun2 in Hrun2'. injection Hrun2' as <- <-.
  exists s1, (set_rxBufferObject b2 s1).
  split; [exact Hrun|]. split.
  - unfold CircularUART_Receive. rewrite Hpop. cbv [bind]. do 2 f_equal.
    rewrite Hout', Hc1. simpl.
    rewrite take_ge by (rewrite length_fmap; lia). reflexivity.
  - split; [simpl; congruence|].
    unfold CircularUART_GetUnreadCount. simpl.
    rewrite (getUnreadSize_wf N _ Hwf2). f_equal. lia.
Qed.

(** ** The driver: start and clear *)




End Build.

(** ** The scenario, run *)

Example scenario_runs :
  scenario false = Ok ([7; 4; 7; 3; 7], [true; false; true], 1,
                 [[x01; x02; x03];
                  [x04; x05; x06; x07; x08; x09; x0a; x00; x00]]).
Proof. vm_compute. reflexivity. Qed.

Example laps_run :
  (let* b := CircularBuffer_init false (Some [x00; x00; x00; x00]) 2 in
   let* (log, b) :=
     laps false 4 b [[x01; x02; x03]; [x04; x05; x06];
                     [x07; x08; x09]; [x0a; x0b; x0c]] in
   Ok (log, back b, front b, faultFlag b))
  = Ok ([(3, 3, [x01; x02; x03]); (3, 3, [x04; x05; x06]);
         (3, 3, [x07; x08; x09]); (3, 3, [x0a; x0b; x0c])], 0, 0, 0).
Proof. vm_compute. reflexivity. Qed.

(** ** Exponents beyond the limit *)

(** X6: [CircularBuffer_init] guards the exponent only by its assertion.
    Built with assertions, an exponent above 16 stops there; with the
    assertions compiled out, every exponent from 17 to 31 silently gives
    the very buffer that exponent 16 gives (mask 0xFFFF, length 65536),
    whatever the real size of the store, and from 32 on the shift itself
    is undefined. *)
Theorem init_oversize_exponent (bufferMemory : option (list byte)) (N : Z) :
  16 < N ->
  CircularBuffer_init false bufferMemory N = AssertFailed /\
  (N < 32 ->
   CircularBuffer_init true bufferMemory N = Ok (fresh 16 bufferMemory)) /\
  (32 <= N -> CircularBuffer_init true bufferMemory N = Undefined).
Proof.
  intros HN. split; [|split].
  - unfold CircularBuffer_init, assert. cbv [bind].
    replace (N <=? 16) with false by (symmetry; apply Z.leb_gt; lia).
    reflexivity.
  - intros Hlt.
    assert (N = 17 \/ N = 18 \/ N = 19 \/ N = 20 \/ N = 21 \/ N = 22 \/ N = 23 \/
            N = 24 \/ N = 25 \/ N = 26 \/ N = 27 \/ N = 28 \/ N = 29 \/ N = 30 \/
            N = 31) as Hcases by lia.
    repeat (destruct Hcases as [->|Hcases]; [reflexivity|]).
    subst N. reflexivity.
  - intros Hge. unfold CircularBuffer_init, assert, shl_ul. cbv [bind].
    replace (N <? 32) with false by (symmetry; apply Z.ltb_ge; lia).
    rewrite andb_false_r. reflexivity.
Qed.

(** ** The driver before it is started *)

(** X15: [CircularUART_Init] leaves both buffers without a store and
    both interrupts switched off.  Until [CircularUART_StartTx] or
    [CircularUART_StartRx] is called the driver cannot be used: built
    with assertions, sending, receiving, both counters, both clears and
    an interrupt with TXE or RXNE pending all stop at the buffer's
    assertion; with the assertions compiled out, [CircularUART_Send]
    accepts nothing and returns 0 and [CircularUART_Receive] returns 0
    and leaves the caller's region alone. *)
Theorem Init_leaves_driver_unstarted (ndebug : bool) (s : CircularUART_t)
        (baud parity : Z) (fuel : nat) (data : list byte) (maxlen : Z)
        (TC : bool) (hw : USART1_inputs) :
  0 <= maxlen ->
  exists s',
    CircularUART_Init ndebug s baud parity = Ok s' /\
    rxBufferObject s' = fresh 0 None /\
    txBufferObject s' = fresh 0 None /\
    peripheral s'
    = peripheral s
      ++ [RCC_APB2PeriphClockCmd [RCC_APB2Periph_GPIOA; RCC_APB2Periph_AFIO] ENABLE;
          RCC_APB2PeriphClockCmd [RCC_APB2Periph_USART1] ENABLE;
          GPIO_Init GPIO_Pin_10 GPIO_Mode_IN_FLOATING None;
          GPIO_Init GPIO_Pin_9 GPIO_Mode_AF_PP (Some GPIO_Speed_50MHz);
          NVIC_Init 0 0 ENABLE;
          USART_Init baud (if parity =? 0 then USART_Parity_No
                           else if parity =? 1 then USART_Parity_Odd
                           else USART_Parity_Even);
          USART_ITConfig USART_IT_TXE DISABLE;
          USART_ITConfig USART_IT_RXNE DISABLE;
          USART_Cmd ENABLE] /\
    (CircularUART_Send false fuel s' data maxlen TC = AssertFailed /\
     CircularUART_Receive false fuel s' data maxlen = AssertFailed /\
     CircularUART_GetUnsentCount false s' = AssertFailed /\
     CircularUART_GetUnreadCount false s' = AssertFailed /\
     CircularUART_ClearTx false s' = AssertFailed /\
     CircularUART_ClearRx false s' = AssertFailed /\
     (IT_TXE hw = true \/ IT_RXNE hw = true ->
      USART1_IRQHandler false s' hw = AssertFailed)) /\
    (exists s'',
        CircularUART_Send true fuel s' data maxlen TC = Ok (0, s'') /\
        txBufferObject s'' = fresh 0 None) /\
    CircularUART_Receive true fuel s' data maxlen = Ok (0, s', data).
Proof.
  intros Hmax.
  assert ((maxlen <? 0) = false) as Hlt by (apply Z.ltb_ge; lia).
  assert (forall nd, CircularBuffer_init nd None 0 = Ok (fresh 0 None)) as Hinit
    by (intros []; reflexivity).
  eexists {| rxBufferObject := fresh 0 None; txBufferObject := fresh 0 None;
             peripheral := _ |}.
  split.
  { unfold CircularUART_Init. rewrite !Hinit. cbv [bind].
    unfold command, set_txBufferObject, set_rxBufferObject. simpl.
    rewrite <- !app_assoc. simpl. reflexivity. }
  split; [reflexivity|]. split; [reflexivity|]. split; [reflexivity|].
  split; [|split].
  - repeat (split; [reflexivity|]).
    intros Hpending. unfold USART1_IRQHandler.
    destruct (IT_TXE hw); [reflexivity|].
    destruct Hpending as [Htxe|Hrxne]; [discriminate Htxe|].
    rewrite Hrxne. reflexivity.
  - eexists. unfold CircularUART_Send, CircularBuffer_pushBack. simpl txBufferObject.
    change (CircularBuffer_getUnreadSize true (fresh 0 None)) with (Ok 0 : result Z).
    cbv [assert bind]. change (u16 (lengthMask (fresh 0 None) - 0)) with 0.
    rewrite Hlt, pushBack_loop_done. split; [reflexivity|].
    destruct TC; reflexivity.
  - unfold CircularUART_Receive, CircularBuffer_popFront. simpl rxBufferObject.
    change (CircularBuffer_getUnreadSize true (fresh 0 None)) with (Ok 0 : result Z).
    cbv [assert bind]. rewrite Hlt, popFront_loop_done.
    reflexivity.
Qed.

(** ** A buffer without a backing store *)

Lemma unconfigured_shape (b : CircularBufferObject_t) :
  unconfigured b ->
  b = {| back := 0; front := 0; faultFlag := faultFlag b;
         lengthMask := 0; length := 0; memory := None |}.
Proof.
  intros (Hb & Hf & Hk & Hl & Hm). destruct b. simpl in *. subst. reflexivity.
Qed.

(** C5, as the code has it: [CircularBuffer_init] accepts a null store
    with exponent 0 and leaves cursors, mask and length at 0 with the
    fault flag clear, but no operation accepts that buffer: built with
    assertions, the unread-size query, the fault check, both pushes and
    both pops all stop at their assertion that the store is not null.
    Only with the assertions compiled out do they return as an empty,
    always-refusing buffer would (unread size 0, single push false, bulk
    push 0, single pop false, bulk pop 0), touching neither store nor
    cursors; the single push is not a no-op even then, it sets the fault
    flag. *)
Theorem null_store_buffer_fails_assertions
        (b : CircularBufferObject_t) (x d : byte) (data : list byte)
        (maxlen : Z) (clearBuffer : bool) (fuel : nat) :
  unconfigured b -> 0 <= maxlen ->
  (CircularBuffer_init false None 0 = Ok (fresh 0 None) /\
   CircularBuffer_init true None 0 = Ok (fresh 0 None) /\
   unconfigured (fresh 0 None) /\ faultFlag (fresh 0 None) = 0) /\
  (CircularBuffer_getUnreadSize false b = AssertFailed /\
   CircularBuffer_checkAndClearFault false b clearBuffer = AssertFailed /\
   CircularBuffer_pushBackByte false b x = AssertFailed /\
   CircularBuffer_popFrontByte false b d = AssertFailed /\
   CircularBuffer_pushBack false fuel b data maxlen = AssertFailed /\
   CircularBuffer_popFront false fuel b data maxlen = AssertFailed) /\
  (CircularBuffer_getUnreadSize true b = Ok 0 /\
   CircularBuffer_pushBackByte true b x = Ok (false, set_faultFlag 1 b) /\
   unconfigured (set_faultFlag 1 b) /\
   CircularBuffer_popFrontByte true b d = Ok (false, b, d) /\
   CircularBuffer_pushBack true fuel b data maxlen = Ok (0, b) /\
   CircularBuffer_popFront true fuel b data maxlen = Ok (0, b, data) /\
   exists r b',
     CircularBuffer_checkAndClearFault true b clearBuffer = Ok (r, b') /\
     unconfigured b').
Proof.
  intros Hun Hmax. split; [|split].
  - repeat split.
  - rewrite (unconfigured_shape b Hun). repeat split.
  - pose proof Hun as (Hb & Hf & Hk & Hl & Hm).
    assert (CircularBuffer_getUnreadSize true b = Ok 0) as Hsize.
    { rewrite (unconfigured_shape b Hun). reflexivity. }
    assert ((maxlen <? 0) = false) as Hlt by (apply Z.ltb_ge; lia).
    split; [exact Hsize|]. split; [|split; [|split; [|split; [|split]]]].
    + unfold CircularBuffer_pushBackByte. rewrite Hsize. cbv [assert bind].
      rewrite Hk. reflexivity.
    + repeat split; assumption.
    + unfold CircularBuffer_popFrontByte. cbv [assert bind].
      rewrite Hb, Hf. reflexivity.
    + unfold CircularBuffer_pushBack. rewrite Hsize. cbv [assert bind].
      rewrite Hk. change (u16 (0 - 0)) with 0. rewrite Hlt.
      rewrite pushBack_loop_done. reflexivity.
    + unfold CircularBuffer_popFront. rewrite Hsize. cbv [assert bind].
      rewrite Hlt. rewrite popFront_loop_done. reflexivity.
    + unfold CircularBuffer_checkAndClearFault. cbv [assert bind].
      destruct clearBuffer;
        match goal with
        | |- context [negb (?f =? 0)] => destruct (negb (f =? 0))
        end;
        eexists _, _; (split; [reflexivity|]); repeat split; simpl; congruence.
Qed.

(** C5 as stated fails: on the buffer [CircularBuffer_init] builds from a
    null store and exponent 0, a single push is not a call that returns
    false and changes nothing.  Built with assertions it does not return
    at all, and without them it sets the fault flag. *)
Lemma null_store_push_counterexample :
  CircularBuffer_init false None 0 = Ok (fresh 0 None) /\
  CircularBuffer_pushBackByte false (fresh 0 None) x01 = AssertFailed /\
  CircularBuffer_getUnreadSize false (fresh 0 None) = AssertFailed /\
  ~ (exists ndebug b,
        CircularBuffer_init ndebug None 0 = Ok b /\
        CircularBuffer_pushBackByte ndebug b x01 = Ok (false, b)).
Proof.
  repeat split. intros ([|] & b & Hinit & Hpush).
  - change (CircularBuffer_init true None 0) with (Ok (fresh 0 None)) in Hinit.
    injection Hinit as <-. vm_compute in Hpush. discriminate Hpush.
  - change (CircularBuffer_init false None 0) with (Ok (fresh 0 None)) in Hinit.
    injection Hinit as <-. vm_compute in Hpush. discriminate Hpush.
Qed.

(** ** Instances of the theorems *)

Ltac wf_by_computation :=
  split; simpl;
  [ lia | reflexivity | reflexivity | lia | lia | auto
  | eexists; split; [reflexivity | simpl; lia] ].

Lemma unread_size_counts_singles_witness :
  1 <= 3 <= 16 /\ 2 ^ 3 <= Z.of_nat (Datatypes.length store8) /\
  exists b0 b pushes pops,
    CircularBuffer_init false (Some store8) 3 = Ok b0 /\
    run_singles false b0 [Pop; Push x01; Push x02; Pop; Pop; Push x03] 0 0
    = Ok (b, pushes, pops) /\
    CircularBuffer_getUnreadSize false b = Ok (pushes - pops) /\
    0 <= pushes - pops <= 2 ^ 3 - 1.
Proof.
  split; [lia|]. split; [simpl; lia|].
  apply (unread_size_counts_singles false 3 store8); [lia | simpl; lia].
Defined.

Lemma pushBackByte_accepts_until_full_witness :
  wf 2 full /\
  exists unread m,
    CircularBuffer_getUnreadSize false full = Ok unread /\
    memory full = Some m /\
    0 <= unread <= 2 ^ 2 - 1 /\
    (unread < 2 ^ 2 - 1 ->
     CircularBuffer_pushBackByte false full x07
     = Ok (true, set_back (Z.land (back full + 1) (lengthMask full))
                          (set_memory (<[Z.to_nat (back full) := x07]> m) full)) /\
     (Z.to_nat (back full) < Datatypes.length m)%nat) /\
    (unread = 2 ^ 2 - 1 ->
     CircularBuffer_pushBackByte false full x07 = Ok (false, set_faultFlag 1 full)) /\
    (back full = front full ->
     forall data : list byte,
       Z.of_nat (Datatypes.length data) = 2 ^ 2 - 1 ->
       exists b1,
         push_each false (Datatypes.length data) full data 0 = Ok (true, b1) /\
         CircularBuffer_pushBackByte false b1 x07 = Ok (false, set_faultFlag 1 b1) /\
         CircularBuffer_getUnreadSize false (set_faultFlag 1 b1) = Ok (2 ^ 2 - 1)).
Proof.
  assert (wf 2 full) as Hwf by wf_by_computation.
  split; [exact Hwf|].
  apply (pushBackByte_accepts_until_full false 2 full x07 Hwf).
Defined.

Lemma fifo_round_trip_witness :
  wf 2 faulted /\ back faulted = front faulted /\
  Z.of_nat (Datatypes.length [x01; x02; x03]) <= 2 ^ 2 - 1 /\
  Datatypes.length [x00; x00; x00] = Datatypes.length [x01; x02; x03] /\
  exists b1 b2,
    push_each false (Datatypes.length [x01; x02; x03]) faulted [x01; x02; x03] 0
    = Ok (true, b1) /\
    pop_each false (Datatypes.length [x01; x02; x03]) b1 [x00; x00; x00] 0
    = Ok (true, b2, [x01; x02; x03]) /\
    back b2 = front b2.
Proof.
  assert (wf 2 faulted) as Hwf by wf_by_computation.
  split; [exact Hwf|]. split; [reflexivity|].
  split; [simpl; lia|]. split; [reflexivity|].
  apply (fifo_round_trip false 2 faulted [x01; x02; x03] [x00; x00; x00] Hwf);
    [reflexivity | simpl; lia | reflexivity].
Defined.

Lemma bulk_transfers_truncate_silently_witness :
  wf 2 wrapped /\ 0 <= 3 < 2 ^ 16 /\
  3 <= Z.of_nat (Datatypes.length [x01; x02; x03]) /\ (2 <= 2)%nat /\
  exists unread,
    CircularBuffer_getUnreadSize false wrapped = Ok unread /\
    (let n := Z.min 3 (2 ^ 2 - 1 - unread) in
     exists b',
       CircularBuffer_pushBack false 2 wrapped [x01; x02; x03] 3 = Ok (n, b') /\
       faultFlag b' = faultFlag wrapped /\
       contents b' = contents wrapped ++ take (Z.to_nat n) [x01; x02; x03] /\
       CircularBuffer_getUnreadSize false b' = Ok (unread + n)) /\
    (let n := Z.min 3 unread in
     exists b' data',
       CircularBuffer_popFront false 2 wrapped [x01; x02; x03] 3 = Ok (n, b', data') /\
       faultFlag b' = faultFlag wrapped /\
       data' = take (Z.to_nat n) (contents wrapped) ++ drop (Z.to_nat n) [x01; x02; x03] /\
       contents b' = drop (Z.to_nat n) (contents wrapped) /\
       CircularBuffer_getUnreadSize false b' = Ok (unread - n)).
Proof.
  assert (wf 2 wrapped) as Hwf by wf_by_computation.
  split; [exact Hwf|]. split; [lia|]. split; [simpl; lia|]. split; [lia|].
  apply (bulk_transfers_truncate_silently false 2 2 wrapped [x01; x02; x03] 3 Hwf);
    [lia | simpl; lia | lia].
Defined.

Lemma bulk_transfers_equal_singles_witness :
  wf 2 wrapped /\ 0 <= 3 < 2 ^ 16 /\
  3 <= Z.of_nat (Datatypes.length [x01; x02; x03]) /\
  (exists n b',
      CircularBuffer_pushBack false 2 wrapped [x01; x02; x03] 3 = Ok (n, b') /\
      n = Z.min 3 (lengthMask wrapped - occupancy wrapped) /\
      push_each false (Z.to_nat n) wrapped [x01; x02; x03] 0 = Ok (true, b')) /\
  (exists n b' data',
      CircularBuffer_popFront false 2 wrapped [x01; x02; x03] 3 = Ok (n, b', data') /\
      n = Z.min 3 (occupancy wrapped) /\
      pop_each false (Z.to_nat n) wrapped [x01; x02; x03] 0 = Ok (true, b', data')).
Proof.
  assert (wf 2 wrapped) as Hwf by wf_by_computation.
  split; [exact Hwf|]. split; [lia|]. split; [simpl; lia|].
  apply (bulk_transfers_equal_singles false 2 wrapped [x01; x02; x03] 3 Hwf);
    [lia | simpl; lia].
Defined.

Lemma fault_flag_discipline_witness :
  wf 2 full /\ valid_call (PushBackByte x07) /\ (2 <= 2)%nat /\
  exists r b',
    exec false 2 full (PushBackByte x07) = Ok (r, b') /\
    wf 2 b' /\
    (forall x, PushBackByte x07 = PushBackByte x ->
               (r = RBool false <-> occupancy full = lengthMask full)) /\
    (faultFlag full = 0 ->
     (faultFlag b' <> 0 <->
      exists x, PushBackByte x07 = PushBackByte x /\ r = RBool false)) /\
    (faultFlag full <> 0 ->
     (faultFlag b' = 0 <->
      exists clearBuffer, PushBackByte x07 = CheckAndClearFault clearBuffer)).
Proof.
  assert (wf 2 full) as Hwf by wf_by_computation.
  split; [exact Hwf|]. split; [exact I|]. split; [lia|].
  apply (fault_flag_discipline false 2 2 full (PushBackByte x07) Hwf); [exact I | lia].
Defined.

Lemma checkAndClearFault_reports_then_clears_witness :
  accepted false faulted /\ 0 <= back faulted < 2 ^ 16 /\
  exists b',
    CircularBuffer_checkAndClearFault false faulted false
    = Ok (negb (faultFlag faulted =? 0), b') /\
    faultFlag b' = 0 /\
    back b' = back faulted /\
    front b' = (if false then back faulted else front faulted) /\
    lengthMask b' = lengthMask faulted /\ length b' = length faulted /\
    memory b' = memory faulted /\
    (false = true -> CircularBuffer_getUnreadSize false b' = Ok 0) /\
    CircularBuffer_checkAndClearFault false b' false = Ok (false, b').
Proof.
  assert (accepted false faulted) as Hacc by (right; simpl; discriminate).
  split; [exact Hacc|]. split; [simpl; lia|].
  apply (checkAndClearFault_reports_then_clears false faulted false Hacc).
  simpl; lia.
Defined.

Lemma popFrontByte_on_empty_changes_nothing_witness :
  accepted false faulted /\ back faulted = front faulted /\
  CircularBuffer_popFrontByte false faulted x07 = Ok (false, faulted, x07).
Proof.
  assert (accepted false faulted) as Hacc by (right; simpl; discriminate).
  split; [exact Hacc|]. split; [reflexivity|].
  apply (popFrontByte_on_empty_changes_nothing false faulted x07 Hacc).
  reflexivity.
Defined.

Lemma null_store_buffer_fails_assertions_witness :
  unconfigured (fresh 0 None) /\ 0 <= 2 /\
  (CircularBuffer_init false None 0 = Ok (fresh 0 None) /\
   CircularBuffer_init true None 0 = Ok (fresh 0 None) /\
   unconfigured (fresh 0 None) /\ faultFlag (fresh 0 None) = 0) /\
  (CircularBuffer_getUnreadSize false (fresh 0 None) = AssertFailed /\
   CircularBuffer_checkAndClearFault false (fresh 0 None) true = AssertFailed /\
   CircularBuffer_pushBackByte false (fresh 0 None) x01 = AssertFailed /\
   CircularBuffer_popFrontByte false (fresh 0 None) x00 = AssertFailed /\
   CircularBuffer_pushBack false 2 (fresh 0 None) [x01; x02] 2 = AssertFailed /\
   CircularBuffer_popFront false 2 (fresh 0 None) [x01; x02] 2 = AssertFailed) /\
  (CircularBuffer_getUnreadSize true (fresh 0 None) = Ok 0 /\
   CircularBuffer_pushBackByte true (fresh 0 None) x01
   = Ok (false, set_faultFlag 1 (fresh 0 None)) /\
   unconfigured (set_faultFlag 1 (fresh 0 None)) /\
   CircularBuffer_popFrontByte true (fresh 0 None) x00 = Ok (false, fresh 0 None, x00) /\
   CircularBuffer_pushBack true 2 (fresh 0 None) [x01; x02] 2 = Ok (0, fresh 0 None) /\
   CircularBuffer_popFront true 2 (fresh 0 None) [x01; x02] 2
   = Ok (0, fresh 0 None, [x01; x02]) /\
   exists r b',
     CircularBuffer_checkAndClearFault true (fresh 0 None) true = Ok (r, b') /\
     unconfigured b').
Proof.
  assert (unconfigured (fresh 0 None)) as Hun by (repeat split).
  split; [exact Hun|]. split; [lia|].
  apply (null_store_buffer_fails_assertions (fresh 0 None) x01 x00 [x01; x02] 2 true 2 Hun).
  lia.
Defined.

(** ** Instances of the further properties *)

Ltac valid_calls_by_computation :=
  repeat first [apply Forall_cons; split | apply Forall_nil];
  simpl; try exact I; try lia; repeat split; try reflexivity; try lia.

Lemma call_sequences_stay_in_bounds_witness :
  0 <= 2 <= 16 /\
  (if 2 =? 0 then 0 else 2 ^ 2) <= Z.of_nat (Datatypes.length [x00; x00; x00; x00]) /\
  Forall valid_call sample_calls /\ (2 <= 2)%nat /\
  exists b0 outs b,
    CircularBuffer_init false (Some [x00; x00; x00; x00]) 2 = Ok b0 /\
    observe_all false 2 b0 sample_calls = Ok (outs, b) /\
    Datatypes.length outs = Datatypes.length sample_calls /\
    lengthMask b = 2 ^ 2 - 1 /\
    length b = (if 2 =? 0 then 0 else 2 ^ 2) /\
    store_len b = Datatypes.length [x00; x00; x00; x00] /\
    0 <= back b <= 2 ^ 2 - 1 /\ 0 <= front b <= 2 ^ 2 - 1.
Proof.
  assert (Forall valid_call sample_calls) as Hvalid by valid_calls_by_computation.
  split; [lia|]. split; [simpl; lia|]. split; [exact Hvalid|]. split; [lia|].
  apply (call_sequences_stay_in_bounds false 2 2 [x00; x00; x00; x00] sample_calls);
    [lia | simpl; lia | exact Hvalid | lia].
Defined.

Lemma buffer_refines_queue_witness :
  wf 2 wrapped /\ Forall valid_call sample_calls /\ (2 <= 2)%nat /\
  exists outs b',
    observe_all false 2 wrapped sample_calls = Ok (outs, b') /\
    queue_run (2 ^ 2 - 1) (queue_of wrapped) sample_calls = (outs, queue_of b').
Proof.
  assert (wf 2 wrapped) as Hwf by wf_by_computation.
  assert (Forall valid_call sample_calls) as Hvalid by valid_calls_by_computation.
  split; [exact Hwf|]. split; [exact Hvalid|]. split; [lia|].
  apply (buffer_refines_queue false 2 2 wrapped sample_calls Hwf Hvalid). lia.
Defined.


Lemma zero_length_bulk_calls_do_nothing_witness :
  accepted false wrapped /\
  CircularBuffer_pushBack false 0 wrapped [] 0 = Ok (0, wrapped) /\
  CircularBuffer_popFront false 0 wrapped [] 0 = Ok (0, wrapped, []).
Proof.
  assert (accepted false wrapped) as Hacc by (right; simpl; discriminate).
  split; [exact Hacc|].
  apply (zero_length_bulk_calls_do_nothing false 0 wrapped [] Hacc).
Defined.

Lemma exponent_zero_buffer_refuses_everything_witness :
  wf 0 degenerate /\ 0 <= 5 /\
  CircularBuffer_getUnreadSize false degenerate = Ok 0 /\
  CircularBuffer_pushBackByte false degenerate x01
  = Ok (false, set_faultFlag 1 degenerate) /\
  wf 0 (set_faultFlag 1 degenerate) /\
  CircularBuffer_popFrontByte false degenerate x00 = Ok (false, degenerate, x00) /\
  CircularBuffer_pushBack false 2 degenerate [x01; x02; x03; x04; x05] 5
  = Ok (0, degenerate) /\
  CircularBuffer_popFront false 2 degenerate [x01; x02; x03; x04; x05] 5
  = Ok (0, degenerate, [x01; x02; x03; x04; x05]).
Proof.
  assert (wf 0 degenerate) as Hwf by wf_by_computation.
  split; [exact Hwf|]. split; [lia|].
  apply (exponent_zero_buffer_refuses_everything false 2 degenerate x01 x00
           [x01; x02; x03; x04; x05] 5 Hwf).
  lia.
Defined.

Lemma init_oversize_exponent_witness :
  16 < 20 /\
  CircularBuffer_init false (Some [x00]) 20 = AssertFailed /\
  (20 < 32 -> CircularBuffer_init true (Some [x00]) 20 = Ok (fresh 16 (Some [x00]))) /\
  (32 <= 20 -> CircularBuffer_init true (Some [x00]) 20 = Undefined).
Proof.
  split; [lia|]. apply (init_oversize_exponent (Some [x00]) 20). lia.
Defined.

Lemma bulk_round_trip_witness :
  wf 2 faulted /\ back faulted = front faulted /\
  Z.of_nat (Datatypes.length [x01; x02; x03]) <= 2 ^ 2 - 1 /\
  Z.of_nat (Datatypes.length [x01; x02; x03]) <= 4 < 2 ^ 16 /\
  4 <= Z.of_nat (Datatypes.length [x00; x00; x00; x00]) /\
  exists b1 b2,
    CircularBuffer_pushBack false 2 faulted [x01; x02; x03]
      (Z.of_nat (Datatypes.length [x01; x02; x03]))
    = Ok (Z.of_nat (Datatypes.length [x01; x02; x03]), b1) /\
    CircularBuffer_popFront false 2 b1 [x00; x00; x00; x00] 4
    = Ok (Z.of_nat (Datatypes.length [x01; x02; x03]), b2,
          [x01; x02; x03]
            ++ drop (Datatypes.length [x01; x02; x03]) [x00; x00; x00; x00]) /\
    back b2 = front b2.
Proof.
  assert (wf 2 faulted) as Hwf by wf_by_computation.
  split; [exact Hwf|]. split; [reflexivity|]. split; [simpl; lia|].
  split; [simpl; lia|]. split; [simpl; lia|].
  apply (bulk_round_trip false 2 faulted [x01; x02; x03] [x00; x00; x00; x00] 4 Hwf);
    [reflexivity | simpl; lia | simpl; lia | simpl; lia].
Defined.

Lemma TXE_interrupts_drain_in_order_witness :
  wf 2 (txBufferObject started) /\ txe_only txe_pending /\
  exists unsent s',
    CircularUART_GetUnsentCount false started = Ok unsent /\
    interrupts false started (repeat txe_pending 3) = Ok s' /\
    peripheral s'
    = peripheral started
      ++ (USART_SendData <$> take 3 (contents (txBufferObject started)))
      ++ repeat (USART_ITConfig USART_IT_TXE DISABLE) (3 - Z.to_nat unsent) /\
    contents (txBufferObject s') = drop 3 (contents (txBufferObject started)) /\
    CircularUART_GetUnsentCount false s' = Ok (unsent - Z.min (Z.of_nat 3) unsent) /\
    rxBufferObject s' = rxBufferObject started.
Proof.
  assert (wf 2 (txBufferObject started)) as Hwf by wf_by_computation.
  assert (txe_only txe_pending) as Hhw by (split; reflexivity).
  split; [exact Hwf|]. split; [exact Hhw|].
  apply (TXE_interrupts_drain_in_order false 2 3 started txe_pending Hwf Hhw).
Defined.

Lemma Send_queues_and_arms_witness :
  wf 2 (txBufferObject started) /\ 0 <= 3 < 2 ^ 16 /\
  3 <= Z.of_nat (Datatypes.length [x01; x02; x03]) /\ (2 <= 2)%nat /\
  exists unsent s',
    CircularUART_GetUnsentCount false started = Ok unsent /\
    (let n := Z.min 3 (2 ^ 2 - 1 - unsent) in
     CircularUART_Send false 2 started [x01; x02; x03] 3 false = Ok (n, s') /\
     contents (txBufferObject s')
     = contents (txBufferObject started) ++ take (Z.to_nat n) [x01; x02; x03] /\
     CircularUART_GetUnsentCount false s' = Ok (unsent + n)) /\
    wf 2 (txBufferObject s') /\
    faultFlag (txBufferObject s') = faultFlag (txBufferObject started) /\
    rxBufferObject s' = rxBufferObject started /\
    peripheral s'
    = peripheral started
      ++ (if false then [USART_ITConfig USART_IT_TXE ENABLE] else []).
Proof.
  assert (wf 2 (txBufferObject started)) as Hwf by wf_by_computation.
  split; [exact Hwf|]. split; [lia|]. split; [simpl; lia|]. split; [lia|].
  apply (Send_queues_and_arms false 2 2 started [x01; x02; x03] 3 false Hwf);
    [lia | simpl; lia | lia].
Defined.

Lemma Send_then_interrupts_transmit_all_witness :
  wf 2 (txBufferObject idle) /\
  back (txBufferObject idle) = front (txBufferObject idle) /\
  Z.of_nat (Datatypes.length [x01; x02; x03]) <= 2 ^ 2 - 1 /\
  txe_only txe_pending /\
  exists s1 s2,
    CircularUART_Send false 2 idle [x01; x02; x03]
      (Z.of_nat (Datatypes.length [x01; x02; x03])) true
    = Ok (Z.of_nat (Datatypes.length [x01; x02; x03]), s1) /\
    interrupts false s1 (repeat txe_pending (S (Datatypes.length [x01; x02; x03])))
    = Ok s2 /\
    peripheral s2
    = peripheral idle
      ++ (if true then [USART_ITConfig USART_IT_TXE ENABLE] else [])
      ++ (USART_SendData <$> [x01; x02; x03])
      ++ [USART_ITConfig USART_IT_TXE DISABLE] /\
    CircularUART_GetUnsentCount false s2 = Ok 0.
Proof.
  assert (wf 2 (txBufferObject idle)) as Hwf by wf_by_computation.
  assert (txe_only txe_pending) as Hhw by (split; reflexivity).
  split; [exact Hwf|]. split; [reflexivity|]. split; [simpl; lia|].
  split; [exact Hhw|].
  apply (Send_then_interrupts_transmit_all false 2 idle [x01; x02; x03] true
           txe_pending Hwf); [reflexivity | simpl; lia | exact Hhw].
Defined.

Lemma RXNE_interrupts_fill_then_drop_witness :
  wf 2 (rxBufferObject started) /\
  Forall rxne_only [rxne_pending 0x41; rxne_pending 0x142] /\
  exists unread s',
    CircularUART_GetUnreadCount false started = Ok unread /\
    interrupts false started [rxne_pending 0x41; rxne_pending 0x142] = Ok s' /\
    (let free := 2 ^ 2 - 1 - unread in
     contents (rxBufferObject s')
     = contents (rxBufferObject started)
       ++ take (Z.to_nat free)
               ((fun hw => uint8 (DR hw))
                  <$> [rxne_pending 0x41; rxne_pending 0x142]) /\
     faultFlag (rxBufferObject s')
     = (if Z.of_nat (Datatypes.length [rxne_pending 0x41; rxne_pending 0x142])
           <=? free
        then faultFlag (rxBufferObject started) else 1) /\
     CircularUART_GetUnreadCount false s'
     = Ok (unread
           + Z.min (Z.of_nat (Datatypes.length
                                [rxne_pending 0x41; rxne_pending 0x142])) free)) /\
    txBufferObject s' = txBufferObject started /\
    peripheral s' = peripheral started.
Proof.
  assert (wf 2 (rxBufferObject started)) as Hwf by wf_by_computation.
  assert (Forall rxne_only [rxne_pending 0x41; rxne_pending 0x142]) as Hall
    by (repeat first [apply Forall_cons; split | apply Forall_nil]; split; reflexivity).
  split; [exact Hwf|]. split; [exact Hall|].
  apply (RXNE_interrupts_fill_then_drop false 2 started _ Hwf Hall).
Defined.

Lemma interrupts_then_Receive_return_all_witness :
  wf 2 (rxBufferObject idle) /\
  back (rxBufferObject idle) = front (rxBufferObject idle) /\
  Forall rxne_only [rxne_pending 0x41; rxne_pending 0x142] /\
  Z.of_nat (Datatypes.length [rxne_pending 0x41; rxne_pending 0x142]) <= 2 ^ 2 - 1 /\
  Z.of_nat (Datatypes.length [rxne_pending 0x41; rxne_pending 0x142]) <= 3 < 2 ^ 16 /\
  3 <= Z.of_nat (Datatypes.length [x00; x00; x00]) /\
  exists s1 s2,
    interrupts false idle [rxne_pending 0x41; rxne_pending 0x142] = Ok s1 /\
    CircularUART_Receive false 2 s1 [x00; x00; x00] 3
    = Ok (Z.of_nat (Datatypes.length [rxne_pending 0x41; rxne_pending 0x142]), s2,
          ((fun hw => uint8 (DR hw)) <$> [rxne_pending 0x41; rxne_pending 0x142])
            ++ drop (Datatypes.length [rxne_pending 0x41; rxne_pending 0x142])
                    [x00; x00; x00]) /\
    faultFlag (rxBufferObject s2) = faultFlag (rxBufferObject idle) /\
    CircularUART_GetUnreadCount false s2 = Ok 0.
Proof.
  assert (wf 2 (rxBufferObject idle)) as Hwf by wf_by_computation.
  assert (Forall rxne_only [rxne_pending 0x41; rxne_pending 0x142]) as Hall
    by (repeat first [apply Forall_cons; split | apply Forall_nil]; split; reflexivity).
  split; [exact Hwf|]. split; [reflexivity|]. split; [exact Hall|].
  split; [simpl; lia|]. split; [simpl; lia|]. split; [simpl; lia|].
  apply (interrupts_then_Receive_return_all false 2 idle _ [x00; x00; x00] 3 Hwf);
    [reflexivity | exact Hall | simpl; lia | simpl; lia | simpl; lia].
Defined.



Lemma Init_leaves_driver_unstarted_witness :
  0 <= 2 /\
  exists s',
    CircularUART_Init false started 115200 0 = Ok s' /\
    rxBufferObject s' = fresh 0 None /\
    txBufferObject s' = fresh 0 None /\
    peripheral s'
    = peripheral started
      ++ [RCC_APB2PeriphClockCmd [RCC_APB2Periph_GPIOA; RCC_APB2Periph_AFIO] ENABLE;
          RCC_APB2PeriphClockCmd [RCC_APB2Periph_USART1] ENABLE;
          GPIO_Init GPIO_Pin_10 GPIO_Mode_IN_FLOATING None;
          GPIO_Init GPIO_Pin_9 GPIO_Mode_AF_PP (Some GPIO_Speed_50MHz);
          NVIC_Init 0 0 ENABLE;
          USART_Init 115200 (if 0 =? 0 then USART_Parity_No
                             else if 0 =? 1 then USART_Parity_Odd
                             else USART_Parity_Even);
          USART_ITConfig USART_IT_TXE DISABLE;
          USART_ITConfig USART_IT_RXNE DISABLE;
          USART_Cmd ENABLE] /\
    (CircularUART_Send false 2 s' [x01; x02] 2 true = AssertFailed /\
     CircularUART_Receive false 2 s' [x01; x02] 2 = AssertFailed /\
     CircularUART_GetUnsentCount false s' = AssertFailed /\
     CircularUART_GetUnreadCount false s' = AssertFailed /\
     CircularUART_ClearTx false s' = AssertFailed /\
     CircularUART_ClearRx false s' = AssertFailed /\
     (IT_TXE txe_pending = true \/ IT_RXNE txe_pending = true ->
      USART1_IRQHandler false s' txe_pending = AssertFailed)) /\
    (exists s'',
        CircularUART_Send true 2 s' [x01; x02] 2 true = Ok (0, s'') /\
        txBufferObject s'' = fresh 0 None) /\
    CircularUART_Receive true 2 s' [x01; x02] 2 = Ok (0, s', [x01; x02]).
Proof.
  split; [lia|].
  apply (Init_leaves_driver_unstarted false started 115200 0 2 [x01; x02] 2 true
           txe_pending).
  lia.
Defined.
